(** * homebridge-smart-envi: the authenticated client and the accessory

    A shallow embedding of [src/platform.ts] (the platform: token, login,
    [fetch] with re-authentication) and of [src/platformAccessory.ts] (the
    accessory: snapshot, poll loop, thermostat and night-light setters),
    followed by the properties of the specification.

    Modelling conventions.
    - A JavaScript [number] holding a temperature is a rational ([Qc],
      canonical fractions with Leibniz equality).  The two conversions are
      given on IEEE doubles as well, to show where rounding enters.
    - An [async] method is a function of a state-and-exception monad.  The
      recursion of [fetch] through [authorize] is not bounded by the source,
      so both take a [fuel]; running out of it is the result [Diverge].
    - The vendor's server and the transport are the environment: a function
      from the requests sent so far and the current request to an outcome.
    - Logging has no effect on the modelled state and is left out. *)

From Stdlib Require Import ZArith NArith QArith Qcanon String List Bool Lia.
From Stdlib Require Import DecimalString DecimalPos DecimalN Floats Ascii.
Import ListNotations.

Open Scope string_scope.
Open Scope Z_scope.

(** ** Results and the monad *)

(** The three [HAPStatus] codes the two files throw. *)
Inductive HAPStatus : Type :=
| SERVICE_COMMUNICATION_FAILURE
| INSUFFICIENT_AUTHORIZATION
| RESOURCE_BUSY.

(** What a rejected promise carries: a [HapStatusError], or another
    exception: the [TypeError] or [SyntaxError] of [response.json()], of a
    destructuring or of a member access, the assertion of a constructor of
    the host. *)
Inductive Error : Type :=
| HapStatusError (status : HAPStatus)
| JsError.

Inductive Result (A : Type) : Type :=
| Ok (a : A)
| Throw (e : Error)
| Diverge.
Arguments Ok {A} a.
Arguments Throw {A} e.
Arguments Diverge {A}.

Definition M (S A : Type) : Type := S -> Result A * S.

Definition ret {S A} (a : A) : M S A := fun s => (Ok a, s).
Definition throw {S A} (e : Error) : M S A := fun s => (Throw e, s).
Definition bind {S A B} (m : M S A) (k : A -> M S B) : M S B :=
  fun s =>
    match m s with
    | (Ok a, s') => k a s'
    | (Throw e, s') => (Throw e, s')
    | (Diverge, s') => (Diverge, s')
    end.
Definition modify {S} (f : S -> S) : M S unit := fun s => (Ok tt, f s).

Declare Scope js_scope.
Delimit Scope js_scope with js.
Notation "x <- m ;; k" := (bind m (fun x => k))
  (at level 61, m at next level, right associativity) : js_scope.
Notation "m ;;; k" := (bind m (fun _ => k))
  (at level 61, right associativity) : js_scope.


(** ** Data model *)

Inductive TemperatureUnit : Type := F | C.

Record Color : Type := mkColor { r : Z; g : Z; b : Z }.

(** [interface NightLightData]. *)
Record NightLightData : Type := mkNightLight {
  brightness : Qc;
  auto : bool;
  on : bool;
  off : bool;
  color : Color
}.

(** [Partial<NightLightData>]: an absent property is [None]. *)
Record PartialNightLightData : Type := mkPartialNightLight {
  p_brightness : option Qc;
  p_auto : option bool;
  p_on : option bool;
  p_off : option bool;
  p_color : option Color
}.

Record AutoData : Type := mkAuto {
  auto_current_temperature : Qc;
  auto_state : Z
}.

(** [interface OnlineDeviceData]. *)
Record OnlineDeviceData : Type := mkOnlineDeviceData {
  current_temperature : Qc;
  ambient_temperature : Qc;
  device_status : Z;
  state : Z;
  current_mode : Z;
  status_field : Z;
  firmware_version : string;
  temperature_unit : TemperatureUnit;
  auto_field : AutoData;
  night_light_setting : NightLightData
}.

(** What the field [data] holds.  Its declared type is
    [OnlineDeviceData | null]; [updateStatus] assigns to it whatever the
    [data] member of a body is, so a third case stands for [undefined] and
    for any other value that is not a snapshot. *)
Inductive DeviceData : Type :=
| Null
| Loaded (d : OnlineDeviceData)
| Untyped.

(** The argument of [updateThermostat]:
    [{ state: 1 | 0 } | { temperature: number }]. *)
Inductive ThermostatUpdate : Type :=
| SetState (state : Z)
| SetTemperature (temperature : Qc).

(** ** HTTP *)

Inductive Method : Type := GET | POST | PATCH.

(** A request body before serialisation: the object handed to
    [JSON.stringify], or the name/value pairs joined into a form. *)
Inductive Body : Type :=
| ThermostatJson (body : ThermostatUpdate)
| NightLightJson (body : NightLightData)
| FormBody (fields : list (string * string)).

(** A JavaScript object used as a header map: keys in insertion order. *)
Definition Headers : Type := list (string * string).

Fixpoint set_property (k v : string) (o : Headers) : Headers :=
  match o with
  | [] => [(k, v)]
  | (k', v') :: o' =>
      if String.eqb k k' then (k, v) :: o' else (k', v') :: set_property k v o'
  end.

(** [{ ...a, ...b }]. *)
Definition spread (a b : Headers) : Headers :=
  fold_left (fun acc kv => set_property (fst kv) (snd kv) acc) b a.

Record RequestInit : Type := mkInit {
  init_method : option Method;
  init_headers : Headers;
  init_body : option Body
}.

Record Request : Type := mkRequest {
  req_method : Method;
  req_url : string;
  req_headers : Headers;
  req_body : option Body
}.

(** The parsed body of a response, by its [data] member, which is all the
    source reads of it: [{ data: { token } }], [{ data }] with an
    [OnlineDeviceData], a document without a [data] member ([OtherJson]),
    [{ data: null }], [{ data: {} }] (an object with none of the members
    read), and the document [null]. *)
Inductive Json : Type :=
| LoginJson (token : string)
| DeviceJson (data : OnlineDeviceData)
| OtherJson
| NullDataJson
| EmptyDataJson
| NullJson.

(** [const { data: { token: authToken } } = body] in [authorize]: [None]
    when the destructuring throws ([data] is [undefined] or [null], or the
    body is [null]); otherwise the value of [token], [None] for
    [undefined]. *)
Definition login_token (body : Json) : option (option string) :=
  match body with
  | LoginJson token => Some (Some token)
  | DeviceJson _ => Some None
  | EmptyDataJson => Some None
  | OtherJson => None
  | NullDataJson => None
  | NullJson => None
  end.

(** [json = None]: the body is not JSON, [response.json()] rejects. *)
Record Response : Type := mkResponse {
  status : Z;
  json : option Json
}.

(** [response.ok]. *)
Definition ok (response : Response) : bool :=
  (200 <=? status response) && (status response <=? 299).

Inductive Outcome : Type :=
| NetworkFailure
| Responded (response : Response).

(** The environment: the server and transport, deterministic in the requests
    received so far, and the random device identifier of each login. *)
Record Env : Type := mkEnv {
  net : list Request -> Request -> Outcome;
  random_device_id : nat -> string
}.

(** ** The platform ([src/platform.ts]) *)

Record Config : Type := mkConfig { username : string; password : string }.

(** The fields of [SmartEnviHomebridgePlatform] the client uses, and the
    requests that left through the global [fetch], oldest first.  The code
    only tests [authToken] for truth, so [None] stands for [null] and for
    [undefined] alike. *)
Record Platform : Type := mkPlatform {
  config : Config;
  authToken : option string;
  sent : list Request
}.

(** [authToken: string | null = null]. *)
Definition new_platform (cfg : Config) : Platform := mkPlatform cfg None [].

Definition set_authToken (t : option string) (p : Platform) : Platform :=
  mkPlatform (config p) t (sent p).

Definition record_sent (q : Request) (p : Platform) : Platform :=
  mkPlatform (config p) (authToken p) (sent p ++ [q]).

(** [this.authToken ? { Authorization: "Bearer " + this.authToken } : {}]:
    [null] and the empty string are falsy. *)
Definition authorization (t : option string) : Headers :=
  match t with
  | None => []
  | Some "" => []
  | Some tok => [("Authorization", "Bearer " ++ tok)]
  end.

(** The argument of the global [fetch]:
    [{ ...init, headers: { ...init?.headers, ...authorization } }]. *)
Definition build_request (input : string) (init : option RequestInit)
    (t : option string) : Request :=
  match init with
  | None => mkRequest GET input (spread [] (authorization t)) None
  | Some i =>
      mkRequest (match init_method i with Some m => m | None => GET end)
        input (spread (init_headers i) (authorization t)) (init_body i)
  end.

Definition login_url : string :=
  "https://app-apis.enviliving.com/apis/v1/auth/login".

Definition login_init (cfg : Config) (device_id : string) : RequestInit :=
  mkInit (Some POST)
    [("Content-Type", "application/x-www-form-urlencoded")]
    (Some (FormBody [("username", username cfg);
                     ("password", password cfg);
                     ("login_type", "1");
                     ("device_type", "ios");
                     ("device_id", device_id)])).

Definition comm_failure {S A} : M S A :=
  throw (HapStatusError SERVICE_COMMUNICATION_FAILURE).

Local Open Scope js_scope.

(** [authorize], over the [fetch] it calls. *)
Definition authorize_with
    (fetch_ : string -> option RequestInit -> M Platform Response)
    (env : Env) : M Platform unit :=
  fun p =>
    (let loginRequest :=
       login_init (config p) (random_device_id env (length (sent p))) in
     modify (set_authToken (Some "")) ;;;
     loginResponse <- fetch_ login_url (Some loginRequest) ;;
     match json loginResponse with
     | Some body =>
         match login_token body with
         | Some authToken => modify (set_authToken authToken)
         | None => throw JsError
         end
     | None => throw JsError
     end) p.

(** [fetch(input, init)]. *)
Fixpoint fetch (fuel : nat) (env : Env) (input : string)
    (init : option RequestInit) : M Platform Response :=
  match fuel with
  | O => fun p => (Diverge, p)
  | S fuel' =>
      fun p =>
        let request := build_request input init (authToken p) in
        match net env (sent p) request with
        | NetworkFailure => comm_failure (record_sent request p)
        | Responded response =>
            (if status response =? 403 then
               modify (set_authToken (Some "")) ;;;
               authorize_with (fetch fuel' env) env ;;;
               fetch fuel' env input init
             else if status response =? 401 then
               throw (HapStatusError INSUFFICIENT_AUTHORIZATION)
             else if negb (ok response) then comm_failure
             else if negb (status response =? 200) then comm_failure
             else ret response) (record_sent request p)
        end
  end.

(** [authorize()]. *)
Definition authorize (fuel : nat) (env : Env) : M Platform unit :=
  authorize_with (fetch fuel env) env.

(** ** Unit conversion ([fToC], [cToF]) *)

Definition Qc_of_Z (z : Z) : Qc := Q2Qc (inject_Z z).

Definition fToC (f : Qc) : Qc :=
  ((f - Qc_of_Z 32) * (Qc_of_Z 5 / Qc_of_Z 9))%Qc.

Definition cToF (c : Qc) : Qc :=
  (c * (Qc_of_Z 9 / Qc_of_Z 5) + Qc_of_Z 32)%Qc.

(** The same two functions on doubles. *)
Definition fToC_double (f : float) : float := ((f - 32) * (5 / 9))%float.

Definition cToF_double (c : float) : float := (c * (9 / 5) + 32)%float.

(** ** The accessory ([src/platformAccessory.ts]) *)

(** One [SmartEnviPlatformAccessory]: the platform it holds a reference to,
    [accessory.context.device.id], and [data]. *)
Record Accessory : Type := mkAccessory {
  platform : Platform;
  device_id : N;
  data : DeviceData
}.

(** [data: DeviceData = null]. *)
Definition new_accessory (p : Platform) (id : N) : Accessory :=
  mkAccessory p id Null.

Definition set_data (d : DeviceData) (a : Accessory) : Accessory :=
  mkAccessory (platform a) (device_id a) d.

(** A call on [this.platform]. *)
Definition on_platform {A} (m : M Platform A) : M Accessory A :=
  fun a =>
    let (res, p') := m (platform a) in
    (res, mkAccessory p' (device_id a) (data a)).

(** The device id inside a template literal. *)
Definition id_string (id : N) : string := NilZero.string_of_uint (N.to_uint id).

Definition status_url (id : N) : string :=
  "https://app-apis.enviliving.com/apis/v1/device/" ++ id_string id.

Definition update_temperature_url (id : N) : string :=
  "https://app-apis.enviliving.com/apis/v1/device/update-temperature/"
  ++ id_string id.

Definition night_light_url (id : N) : string :=
  "https://app-apis.enviliving.com/apis/v1/device/night-light-setting/"
  ++ id_string id.

Definition patch_json (body : Body) : RequestInit :=
  mkInit (Some PATCH) [("Content-Type", "application/json")] (Some body).

(** [guardedOnlineData()]; the test on [device_status] is commented out in
    the source.  Every caller reads a member of the result at once.  A value
    outside the declared type has no snapshot to return: with [undefined]
    held that access throws a [TypeError], and the third case ends the read
    of any such value in that way. *)
Definition guardedOnlineData : M Accessory OnlineDeviceData :=
  fun a =>
    match data a with
    | Null => throw (HapStatusError RESOURCE_BUSY) a
    | Loaded d => ret d a
    | Untyped => throw JsError a
    end.

(** [const { data } = body] in [updateStatus]: [None] when the destructuring
    throws (the body is [null]), otherwise the value assigned to
    [this.data]. *)
Definition status_data (body : Json) : option DeviceData :=
  match body with
  | DeviceJson d => Some (Loaded d)
  | NullDataJson => Some Null
  | LoginJson _ => Some Untyped
  | EmptyDataJson => Some Untyped
  | OtherJson => Some Untyped
  | NullJson => None
  end.

(** [updateStatus()]: the assignment to [this.data] is its last statement. *)
Definition updateStatus (fuel : nat) (env : Env) : M Accessory unit :=
  fun a =>
    (response <- on_platform (fetch fuel env (status_url (device_id a)) None) ;;
     match json response with
     | Some body =>
         match status_data body with
         | Some data => modify (set_data data)
         | None => throw JsError
         end
     | None => throw JsError
     end) a.

(** [updateThermostat(body)]; [await response.json()] sits in the log call
    between the request and the refresh. *)
Definition updateThermostat (fuel : nat) (env : Env)
    (body : ThermostatUpdate) : M Accessory unit :=
  fun a =>
    (response <- on_platform
       (fetch fuel env (update_temperature_url (device_id a))
          (Some (patch_json (ThermostatJson body)))) ;;
     match json response with
     | None => throw JsError
     | Some _ => updateStatus fuel env
     end) a.

(** [{ ...night_light_setting, ...settings }]. *)
Definition merge (current : NightLightData)
    (settings : PartialNightLightData) : NightLightData :=
  mkNightLight
    (match p_brightness settings with Some x => x | None => brightness current end)
    (match p_auto settings with Some x => x | None => auto current end)
    (match p_on settings with Some x => x | None => on current end)
    (match p_off settings with Some x => x | None => off current end)
    (match p_color settings with Some x => x | None => color current end).

(** [updateNightLightSettings(settings)]. *)
Definition updateNightLightSettings (fuel : nat) (env : Env)
    (settings : PartialNightLightData) : M Accessory unit :=
  fun a =>
    (current <- guardedOnlineData ;;
     let body := NightLightJson (merge (night_light_setting current) settings) in
     on_platform
       (fetch fuel env (night_light_url (device_id a))
          (Some (patch_json body))) ;;;
     updateStatus fuel env) a.

(** [10 * 1000], the argument of [setTimeout]. *)
Definition poll_period : Z := 10 * 1000.

(** One run of [poll()]: [updateStatus()], its rejection caught and logged,
    then [setTimeout(poll, 10 * 1000)].  The second component is the delay of
    the timer set, [None] while [updateStatus()] has not settled. *)
Definition poll (fuel : nat) (env : Env) (a : Accessory)
    : Accessory * option Z :=
  match updateStatus fuel env a with
  | (Ok _, a') => (a', Some poll_period)
  | (Throw _, a') => (a', Some poll_period)
  | (Diverge, a') => (a', None)
  end.


(** *** Characteristic handlers *)

(** [CurrentTemperature.onGet]. *)
Definition currentTemperature_onGet : M Accessory Qc :=
  d <- guardedOnlineData ;;
  match temperature_unit d with
  | F => ret (fToC (ambient_temperature d))
  | C => ret (ambient_temperature d)
  end.

(** [TargetTemperature.onGet]. *)
Definition targetTemperature_onGet : M Accessory Qc :=
  d <- guardedOnlineData ;;
  match temperature_unit d with
  | F => ret (fToC (current_temperature d))
  | C => ret (current_temperature d)
  end.

(** [TargetTemperature.onSet(value)]. *)
Definition targetTemperature_onSet (fuel : nat) (env : Env) (value : Qc)
    : M Accessory unit :=
  d <- guardedOnlineData ;;
  let temperature :=
    match temperature_unit d with
    | F => cToF value
    | C => value
    end in
  updateThermostat fuel env (SetTemperature temperature).

(** [TargetHeatingCoolingState.onSet(value)]. *)
Definition targetState_onSet (fuel : nat) (env : Env) (value : Z)
    : M Accessory unit :=
  updateThermostat fuel env (SetState value).

(** Night light [On.onGet]. *)
Definition nightLightOn_onGet : M Accessory bool :=
  d <- guardedOnlineData ;;
  ret (negb (off (night_light_setting d))).

(** Night light [On.onSet(value)]. *)
Definition nightLightOn_onSet (fuel : nat) (env : Env) (value : bool)
    : M Accessory unit :=
  updateNightLightSettings fuel env
    (mkPartialNightLight None (Some false) (Some value) (Some (negb value)) None).

(** Night light [Brightness.onSet(value)]. *)
Definition brightness_onSet (fuel : nat) (env : Env) (value : Qc)
    : M Accessory unit :=
  updateNightLightSettings fuel env
    (mkPartialNightLight (Some value) None None None None).

(** ** Runs of the accessory *)

(** What the host may invoke on an accessory between two reads. *)
Inductive Call : Type :=
| CallPoll
| CallSetThermostat (body : ThermostatUpdate)
| CallSetTargetTemperature (value : Qc)
| CallSetNightLight (settings : PartialNightLightData).

Definition call (fuel : nat) (env : Env) (c : Call) (a : Accessory)
    : Accessory :=
  match c with
  | CallPoll => fst (poll fuel env a)
  | CallSetThermostat body => snd (updateThermostat fuel env body a)
  | CallSetTargetTemperature value => snd (targetTemperature_onSet fuel env value a)
  | CallSetNightLight settings => snd (updateNightLightSettings fuel env settings a)
  end.

(** The states an accessory goes through, the first one included. *)
Fixpoint states (fuel : nat) (env : Env) (calls : list Call) (a : Accessory)
    : list Accessory :=
  a :: match calls with
       | [] => []
       | c :: calls' => states fuel env calls' (call fuel env c a)
       end.

Definition final_state (fuel : nat) (env : Env) (calls : list Call)
    (a : Accessory) : Accessory :=
  fold_left (fun s c => call fuel env c s) calls a.

Definition loaded (a : Accessory) : bool :=
  match data a with Loaded _ => true | _ => false end.

(** ** Servers used in the examples *)

Definition is_login (q : Request) : bool := String.eqb (req_url q) login_url.

Definition count_logins (l : list Request) : nat := length (filter is_login l).

Definition ok_response : Response := mkResponse 200 (Some OtherJson).

Definition login_response : Response := mkResponse 200 (Some (LoginJson "fresh")).

Definition fixed_device_id : nat -> string := fun _ => "0000".

(** Every login succeeds; any other request is answered 403 while fewer than
    [until] requests have been received, and 200 afterwards. *)
Definition expired (until : nat) : Env :=
  mkEnv (fun history q =>
           if is_login q then Responded login_response
           else if (length history <? until)%nat
                then Responded (mkResponse 403 None)
                else Responded ok_response)
        fixed_device_id.

(** The same status for every request. *)
Definition always (code : Z) : Env :=
  mkEnv (fun _ _ => Responded (mkResponse code None)) fixed_device_id.

Definition unreachable : Env :=
  mkEnv (fun _ _ => NetworkFailure) fixed_device_id.

(** Logins succeed, the status endpoint serves [d], the rest is accepted. *)
Definition serving (d : OnlineDeviceData) (id : N) : Env :=
  mkEnv (fun _ q =>
           if is_login q then Responded login_response
           else if String.eqb (req_url q) (status_url id)
                then Responded (mkResponse 200 (Some (DeviceJson d)))
                else Responded ok_response)
        fixed_device_id.


(** Serves [d] to the first request and answers every later one with 200
    and [{ data: null }]. *)
Definition serving_then_null (d : OnlineDeviceData) : Env :=
  mkEnv (fun history _ =>
           match history with
           | [] => Responded (mkResponse 200 (Some (DeviceJson d)))
           | _ => Responded (mkResponse 200 (Some NullDataJson))
           end)
        fixed_device_id.


Definition example_config : Config := mkConfig "user@example.com" "secret".

Definition example_night_light : NightLightData :=
  mkNightLight (Qc_of_Z 10) false true false (mkColor 1 2 3).

Definition example_snapshot (unit : TemperatureUnit) (online : Z)
    : OnlineDeviceData :=
  mkOnlineDeviceData (Qc_of_Z 70) (Qc_of_Z 68) online 1 1 1 "1.0.0" unit
    (mkAuto (Qc_of_Z 70) 1) example_night_light.

Definition example_accessory (d : DeviceData) : Accessory :=
  mkAccessory (new_platform example_config) 7 d.

(** The request at position [n] of those sent. *)
Definition nth_sent (n : nat) (p : Platform) : option Request :=
  nth_error (sent p) n.

(** The status the server gave to the request at position [i] of [l]. *)
Definition status_at (env : Env) (l : list Request) (i : nat) : option Z :=
  match nth_error l i with
  | Some q =>
      match net env (firstn i l) q with
      | Responded response => Some (status response)
      | NetworkFailure => None
      end
  | None => None
  end.

(** A status read of device 7 by a platform that has not logged in, against
    a server that rejects the first two attempts. *)
Definition rejected_twice : Result Response * Platform :=
  fetch 3 (expired 4) (status_url 7) None (new_platform example_config).

(** The same read against a server that rejects the first attempt only. *)
Definition rejected_once : Result Response * Platform :=
  fetch 2 (expired 2) (status_url 7) None (new_platform example_config).


(** ** Relations between states *)

(** A relation between the state before and after a computation. *)
Definition preserves {S A} (R : S -> S -> Prop) (m : M S A) : Prop :=
  forall s, R s (snd (m s)).

(** The configuration is kept and requests are only added to those sent. *)
Definition extends (p p' : Platform) : Prop :=
  config p' = config p /\ exists l, sent p' = (sent p ++ l)%list.

(** The same for the platform of an accessory, whose device is kept. *)
Definition acc_extends (a a' : Accessory) : Prop :=
  device_id a' = device_id a /\ extends (platform a) (platform a').

(** The first request sent after state [a], read in a later state [a']. *)
Definition first_request (a a' : Accessory) : option Request :=
  nth_sent (length (sent (platform a))) (platform a').

(** Between [a] and [a'] the first request sent was [method url] with
    [body]. *)
Definition sends_first (a a' : Accessory) (method : Method) (url : string)
    (body : Body) : Prop :=
  exists request,
    first_request a a' = Some request /\
    req_method request = method /\
    req_url request = url /\
    req_body request = Some body.

(** ** Settings used in the examples *)

Definition brightness_50 : PartialNightLightData :=
  mkPartialNightLight (Some (Qc_of_Z 50)) None None None None.

(** A night light whose [on], [off] and [auto] flags are all asserted. *)
Definition all_flags_night_light : NightLightData :=
  mkNightLight (Qc_of_Z 10) true true true (mkColor 1 2 3).

Definition all_flags_snapshot : OnlineDeviceData :=
  mkOnlineDeviceData (Qc_of_Z 70) (Qc_of_Z 68) 1 1 1 1 "1.0.0" F
    (mkAuto (Qc_of_Z 70) 1) all_flags_night_light.

(** The host sets the target temperature to [value] degrees Celsius on a
    device whose snapshot reports [unit]. *)
Definition set_target (unit : TemperatureUnit) (value : Z) : Accessory :=
  snd (targetTemperature_onSet 2 (serving (example_snapshot unit 1) 7)
         (Qc_of_Z value) (example_accessory (Loaded (example_snapshot unit 1)))).

(** ** Strings ([sanitizeName], the form encoding of [authorize])

    A JavaScript string is modelled by its UTF-8 bytes.  The two functions
    below treat every byte above 127 alike (dropped by [sanitizeName],
    escaped by [encodeURIComponent]), as the source does with the code units
    of a character outside ASCII. *)

Definition in_range (lo hi : N) (c : ascii) : bool :=
  ((lo <=? N_of_ascii c) && (N_of_ascii c <=? hi))%N.

Definition is_alnum (c : ascii) : bool :=
  in_range 65 90 c || in_range 97 122 c || in_range 48 57 c.

Fixpoint mem_char (c : ascii) (s : string) : bool :=
  match s with
  | EmptyString => false
  | String c' s' => Ascii.eqb c c' || mem_char c s'
  end.

(** The characters the class [[^a-zA-Z0-9 ']] does not match. *)
Definition is_name_char (c : ascii) : bool := is_alnum c || mem_char c " '".

(** [sanitizeName(str)]: [str.replace(/[^a-zA-Z0-9 ']/g, "")]. *)
Fixpoint sanitizeName (str : string) : string :=
  match str with
  | EmptyString => EmptyString
  | String c str' =>
      if is_name_char c then String c (sanitizeName str') else sanitizeName str'
  end.

(** The characters [encodeURIComponent] leaves as they are. *)
Definition is_unreserved (c : ascii) : bool :=
  is_alnum c || mem_char c "-_.!~*'()".

Definition hex_digit (n : N) : ascii :=
  (if n <? 10 then ascii_of_N (48 + n) else ascii_of_N (55 + n))%N.

(** The escape of one byte: a percent sign and two upper-case hex digits. *)
Definition percent (c : ascii) : string :=
  String "%" (String (hex_digit (N_of_ascii c / 16))
                (String (hex_digit (N_of_ascii c mod 16)) EmptyString)).

Fixpoint encodeURIComponent (s : string) : string :=
  match s with
  | EmptyString => EmptyString
  | String c s' =>
      (if is_unreserved c then String c EmptyString else percent c)
      ++ encodeURIComponent s'
  end.

(** [s.split("*").join("%2A")]. *)
Fixpoint escape_stars (s : string) : string :=
  match s with
  | EmptyString => EmptyString
  | String c s' =>
      if Ascii.eqb c "*" then "%2A" ++ escape_stars s'
      else String c (escape_stars s')
  end.

(** The value of a field of the login form. *)
Definition encode_value (value : string) : string :=
  escape_stars (encodeURIComponent value).

(** [parts.join(sep)]. *)
Fixpoint join (sep : string) (parts : list string) : string :=
  match parts with
  | [] => EmptyString
  | [part] => part
  | part :: parts' => part ++ sep ++ join sep parts'
  end.

(** The body [authorize] hands to [fetch]: each pair as [name=value], the
    value encoded, joined by [&]. *)
Definition login_form (fields : list (string * string)) : string :=
  join "&" (map (fun nv => fst nv ++ "=" ++ encode_value (snd nv)) fields).


Definition login_fields (cfg : Config) (device_id : string)
    : list (string * string) :=
  [("username", username cfg); ("password", password cfg);
   ("login_type", "1"); ("device_type", "ios"); ("device_id", device_id)].

Fixpoint count_char (c : ascii) (s : string) : nat :=
  match s with
  | EmptyString => O
  | String c' s' => ((if Ascii.eqb c c' then 1 else 0) + count_char c s')%nat
  end.

Definition hex_value (c : ascii) : N :=
  (if in_range 48 57 c then N_of_ascii c - 48 else N_of_ascii c - 55)%N.

(** The reading of an encoded value back into bytes; it serves to state that
    the encoding loses nothing. *)
Fixpoint unescape (s : string) : string :=
  match s with
  | EmptyString => EmptyString
  | String c s' =>
      if Ascii.eqb c "%" then
        match s' with
        | String h (String l s'') =>
            String (ascii_of_N (16 * hex_value h + hex_value l)) (unescape s'')
        | _ => String c (unescape s')
        end
      else String c (unescape s')
  end.

Fixpoint all_chars (P : ascii -> bool) (s : string) : bool :=
  match s with
  | EmptyString => true
  | String c s' => P c && all_chars P s'
  end.

(** What an encoded value is made of: no [&], [=], [*], [+] or space. *)
Definition is_form_safe (c : ascii) : bool :=
  is_alnum c || mem_char c "-_.!~'()%".

(** ** Reading requests *)

(** [o[k]] on a header object. *)
Fixpoint get_property (k : string) (o : Headers) : option string :=
  match o with
  | [] => None
  | (k', v) :: o' => if String.eqb k k' then Some v else get_property k o'
  end.

(** [init?.headers]. *)
Definition headers_of (init : option RequestInit) : Headers :=
  match init with
  | Some i => init_headers i
  | None => []
  end.

(** The request goes to one of [urls]. *)
Definition goes_to (urls : list string) (q : Request) : bool :=
  existsb (String.eqb (req_url q)) urls.

(** The configuration is kept and every request added satisfies [P]. *)
Definition adds_only (P : Request -> bool) (p p' : Platform) : Prop :=
  config p' = config p /\
  exists l, sent p' = (sent p ++ l)%list /\ forallb P l = true.

(** The first request of a login, sent with the token just emptied. *)
Definition login_request (env : Env) (p : Platform) : Request :=
  build_request login_url
    (Some (login_init (config p) (random_device_id env (length (sent p)))))
    (Some "").

(** An outcome of the login request that ends the login in failure: no
    answer, or an answer that is neither a 403 nor a 200 whose body has an
    object as [data]. *)
Definition login_rejected (o : Outcome) : bool :=
  match o with
  | NetworkFailure => true
  | Responded response =>
      negb (status response =? 403) &&
      negb ((status response =? 200) &&
            match json response with
            | Some (LoginJson _) => true
            | Some (DeviceJson _) => true
            | Some EmptyDataJson => true
            | _ => false
            end)
  end.

(** ** The other characteristic handlers and [updateUserSettings] *)

(** The constants of the host library the handlers return or compare with:
    [CurrentHeatingCoolingState] and [TargetHeatingCoolingState] [OFF] and
    [HEAT], [TemperatureDisplayUnits] [CELSIUS] and [FAHRENHEIT]. *)
Definition OFF : Z := 0.
Definition HEAT : Z := 1.
Definition CELSIUS : Z := 0.
Definition FAHRENHEIT : Z := 1.

(** [CurrentHeatingCoolingState.onGet]. *)
Definition currentHeatingCoolingState_onGet : M Accessory Z :=
  d <- guardedOnlineData ;;
  ret (if state d =? 1 then HEAT else OFF).

(** [TargetHeatingCoolingState.onGet]. *)
Definition targetHeatingCoolingState_onGet : M Accessory Z :=
  d <- guardedOnlineData ;;
  ret (if state d =? 1 then HEAT else OFF).

(** [TemperatureDisplayUnits.onGet]. *)
Definition temperatureDisplayUnits_onGet : M Accessory Z :=
  d <- guardedOnlineData ;;
  ret (match temperature_unit d with F => FAHRENHEIT | C => CELSIUS end).

(** [Brightness.onGet]. *)
Definition brightness_onGet : M Accessory Qc :=
  d <- guardedOnlineData ;;
  ret (brightness (night_light_setting d)).






(** A handler that reads the snapshot and nothing else: it leaves the
    accessory as it is, throws RESOURCE_BUSY without a snapshot and returns
    a value with one. *)
Definition reads_only {A} (get : M Accessory A) : Prop :=
  forall a,
    snd (get a) = a /\
    (data a = Null -> fst (get a) = Throw (HapStatusError RESOURCE_BUSY)) /\
    (forall d, data a = Loaded d -> exists v, fst (get a) = Ok v).

(** The error with which one answer, or none, ends a call at once. *)
Definition failure_of (o : Outcome) : option HAPStatus :=
  match o with
  | NetworkFailure => Some SERVICE_COMMUNICATION_FAILURE
  | Responded response =>
      if status response =? 403 then None
      else if status response =? 401 then Some INSUFFICIENT_AUTHORIZATION
      else if status response =? 200 then None
      else Some SERVICE_COMMUNICATION_FAILURE
  end.

(** The same relation as [adds_only] for the platform of an accessory, whose
    device and snapshot are kept. *)
Definition acc_adds_only (P : Request -> bool) (a a' : Accessory) : Prop :=
  device_id a' = device_id a /\ adds_only P (platform a) (platform a').

(** The value of [data] is what the [data] member of the answer to the last
    request sent holds, that request being one for the status of the device
    and its answer a 200. *)
Definition holds_status_answer (env : Env) (a' : Accessory) : Prop :=
  exists l q response body,
    sent (platform a') = (l ++ [q])%list /\
    req_url q = status_url (device_id a') /\
    net env l q = Responded response /\
    status response = 200 /\
    json response = Some body /\
    status_data body = Some (data a').


(** An unloaded accessory polled once, and twice, against
    [serving_then_null]. *)
Definition polled_once : Accessory :=
  final_state 1 (serving_then_null (example_snapshot F 1)) [CallPoll]
    (example_accessory Null).

Definition polled_twice : Accessory :=
  final_state 1 (serving_then_null (example_snapshot F 1)) [CallPoll; CallPoll]
    (example_accessory Null).

(** The PATCH an accessory in state [a] sends to [url] with [body]. *)
Definition patch_request (a : Accessory) (url : string) (body : Body)
    : Request :=
  build_request url (Some (patch_json body)) (authToken (platform a)).

(** The accessory once [q] has left and nothing else has happened. *)
Definition after_request (q : Request) (a : Accessory) : Accessory :=
  mkAccessory (record_sent q (platform a)) (device_id a) (data a).

(** What the server answers to [q] sent by the accessory in state [a]. *)
Definition answer_to (env : Env) (a : Accessory) (q : Request) : Outcome :=
  net env (sent (platform a)) q.

(** ** The platform: cached accessories, discovery, startup *)























(** * Properties *)

(** ** The monad *)

Lemma preserves_bind {S A B} (R : S -> S -> Prop) (m : M S A) (k : A -> M S B) :
  (forall x y z, R x y -> R y z -> R x z) ->
  preserves R m -> (forall a, preserves R (k a)) -> preserves R (bind m k).
Proof.
  intros Htrans Hm Hk s. unfold bind.
  specialize (Hm s). destruct (m s) as [[a | e |] s']; simpl in *; auto.
  eapply Htrans; [exact Hm | apply Hk].
Qed.

(** One step through a [bind], for a transitive relation. *)
Ltac through_bind R Rtrans := apply (preserves_bind R); [exact Rtrans | |].

Lemma bind_diverge {S A B} (m : M S A) (k : A -> M S B) (s : S) :
  fst (m s) = Diverge -> fst (bind m k s) = Diverge.
Proof. unfold bind. destruct (m s) as [[a | e |] s']; simpl; congruence. Qed.

(** ** The client: one step of [fetch] *)

Lemma build_request_url input init t :
  req_url (build_request input init t) = input.
Proof. destruct init; reflexivity. Qed.

Lemma is_login_build_request input init t :
  is_login (build_request input init t) = String.eqb input login_url.
Proof. unfold is_login. now rewrite build_request_url. Qed.

Lemma fetch_unfold fuel env input init p :
  fetch (S fuel) env input init p =
  let request := build_request input init (authToken p) in
  match net env (sent p) request with
  | NetworkFailure => comm_failure (record_sent request p)
  | Responded response =>
      (if status response =? 403 then
         modify (set_authToken (Some "")) ;;;
         authorize fuel env ;;;
         fetch fuel env input init
       else if status response =? 401 then
         throw (HapStatusError INSUFFICIENT_AUTHORIZATION)
       else if negb (ok response) then comm_failure
       else if negb (status response =? 200) then comm_failure
       else ret response) (record_sent request p)
  end.
Proof. reflexivity. Qed.

Lemma fetch_transport_failure fuel env input init p :
  net env (sent p) (build_request input init (authToken p)) = NetworkFailure ->
  fetch (S fuel) env input init p =
  (Throw (HapStatusError SERVICE_COMMUNICATION_FAILURE),
   record_sent (build_request input init (authToken p)) p).
Proof. intros H. rewrite fetch_unfold. cbv zeta. now rewrite H. Qed.

Lemma fetch_401 fuel env input init p response :
  net env (sent p) (build_request input init (authToken p)) = Responded response ->
  status response = 401 ->
  fetch (S fuel) env input init p =
  (Throw (HapStatusError INSUFFICIENT_AUTHORIZATION),
   record_sent (build_request input init (authToken p)) p).
Proof.
  intros H Hs. rewrite fetch_unfold. cbv zeta. rewrite H, Hs. reflexivity.
Qed.

Lemma fetch_200 fuel env input init p response :
  net env (sent p) (build_request input init (authToken p)) = Responded response ->
  status response = 200 ->
  fetch (S fuel) env input init p =
  (Ok response, record_sent (build_request input init (authToken p)) p).
Proof.
  intros H Hs. rewrite fetch_unfold. cbv zeta. rewrite H.
  unfold ok. rewrite Hs. reflexivity.
Qed.

Lemma fetch_403 fuel env input init p response :
  net env (sent p) (build_request input init (authToken p)) = Responded response ->
  status response = 403 ->
  fetch (S fuel) env input init p =
  (authorize fuel env ;;; fetch fuel env input init)
    (set_authToken (Some "")
       (record_sent (build_request input init (authToken p)) p)).
Proof.
  intros H Hs. rewrite fetch_unfold. cbv zeta. rewrite H, Hs. reflexivity.
Qed.

Lemma fetch_other_status fuel env input init p response :
  net env (sent p) (build_request input init (authToken p)) = Responded response ->
  status response <> 200 -> status response <> 401 -> status response <> 403 ->
  fetch (S fuel) env input init p =
  (Throw (HapStatusError SERVICE_COMMUNICATION_FAILURE),
   record_sent (build_request input init (authToken p)) p).
Proof.
  intros H H200 H401 H403. rewrite fetch_unfold. cbv zeta. rewrite H.
  destruct (Z.eqb_spec (status response) 403); [contradiction |].
  destruct (Z.eqb_spec (status response) 401); [contradiction |].
  destruct (ok response); [| reflexivity].
  destruct (Z.eqb_spec (status response) 200); [contradiction | reflexivity].
Qed.

(** ** The client: what a whole call may change *)

Lemma extends_refl p : extends p p.
Proof. split; [reflexivity | exists []; now rewrite app_nil_r]. Qed.

Lemma extends_trans p q s : extends p q -> extends q s -> extends p s.
Proof.
  intros [Hc [l Hl]] [Hc' [l' Hl']]. split; [congruence |].
  exists (l ++ l')%list. now rewrite Hl', Hl, app_assoc.
Qed.

Lemma extends_set_authToken t p : extends p (set_authToken t p).
Proof. split; [reflexivity | exists []; simpl; now rewrite app_nil_r]. Qed.

Lemma extends_record_sent q p : extends p (record_sent q p).
Proof. split; [reflexivity | now exists [q]]. Qed.

Create HintDb client.

#[local] Hint Resolve extends_refl extends_trans extends_set_authToken
  extends_record_sent : client.

Lemma authorize_with_extends fetch_ env :
  (forall input init, preserves extends (fetch_ input init)) ->
  preserves extends (authorize_with fetch_ env).
Proof.
  intros Hf p. unfold authorize_with.
  through_bind extends extends_trans.
  - intros s. apply extends_set_authToken.
  - intros _. apply (preserves_bind extends); [exact extends_trans | apply Hf |].
    intros response s.
    destruct (json response) as [body |]; [| apply extends_refl].
    destruct (login_token body) as [t |]; simpl; auto with client.
Qed.

Lemma fetch_extends fuel env :
  forall input init, preserves extends (fetch fuel env input init).
Proof.
  induction fuel as [| fuel IH]; intros input init p.
  - apply extends_refl.
  - rewrite fetch_unfold. cbv zeta.
    set (request := build_request input init (authToken p)).
    destruct (net env (sent p) request) as [| response].
    + apply extends_record_sent.
    + eapply extends_trans; [apply (extends_record_sent request) |].
      destruct (status response =? 403).
      * through_bind extends extends_trans.
        { intros s. apply extends_set_authToken. }
        intros _. through_bind extends extends_trans.
        { apply authorize_with_extends, IH. }
        intros _. apply IH.
      * destruct (status response =? 401); [apply extends_refl |].
        destruct (negb (ok response)); [apply extends_refl |].
        destruct (negb (status response =? 200)); apply extends_refl.
Qed.

Lemma authorize_extends fuel env : preserves extends (authorize fuel env).
Proof. apply authorize_with_extends, fetch_extends. Qed.

(** The first request of a call is the one built from its arguments and the
    token held when it starts. *)
Lemma fetch_first_request fuel env input init p :
  nth_sent (length (sent p)) (snd (fetch (S fuel) env input init p)) =
  Some (build_request input init (authToken p)).
Proof.
  rewrite fetch_unfold. cbv zeta.
  set (request := build_request input init (authToken p)).
  assert (Hrec : forall p', extends (record_sent request p) p' ->
                            nth_sent (length (sent p)) p' = Some request).
  { intros p' [_ [l Hl]]. unfold nth_sent. rewrite Hl. simpl.
    rewrite <- app_assoc. rewrite nth_error_app2 by lia.
    now rewrite Nat.sub_diag. }
  destruct (net env (sent p) request) as [| response].
  - apply Hrec, extends_refl.
  - apply Hrec.
    destruct (status response =? 403).
    + through_bind extends extends_trans.
      { intros s. apply extends_set_authToken. }
      intros _. through_bind extends extends_trans.
      { apply authorize_extends. }
      intros _. apply fetch_extends.
    + destruct (status response =? 401); [apply extends_refl |].
      destruct (negb (ok response)); [apply extends_refl |].
      destruct (negb (status response =? 200)); apply extends_refl.
Qed.

(** What a resolved call returns. *)
Lemma fetch_ok_is_last_answer fuel env :
  forall input init p response p',
    fetch fuel env input init p = (Ok response, p') ->
    status response = 200 /\
    exists l q,
      sent p' = (l ++ [q])%list /\ req_url q = input /\
      net env l q = Responded response.
Proof.
  induction fuel as [| fuel IH]; intros input init p response p';
    [discriminate |].
  rewrite fetch_unfold. cbv zeta.
  set (request := build_request input init (authToken p)).
  destruct (net env (sent p) request) as [| answer] eqn:Hnet; [discriminate |].
  destruct (Z.eqb_spec (status answer) 403) as [H403 | H403].
  - unfold bind, modify.
    destruct (authorize fuel env _) as [[[] | e |] p1]; try discriminate.
    apply IH.
  - destruct (status answer =? 401); [discriminate |].
    destruct (negb (ok answer)); [discriminate |].
    destruct (Z.eqb_spec (status answer) 200) as [H200 | H200];
      [| discriminate].
    simpl. intros H. injection H as <- <-. split; [exact H200 |].
    exists (sent p), request. repeat split; [apply build_request_url | exact Hnet].
Qed.

(** ** Login *)

(** A login that succeeds ends with the token of the login response. *)
Lemma authorize_ok fuel env p p' :
  authorize fuel env p = (Ok tt, p') ->
  exists response body t p1,
    fetch fuel env login_url
      (Some (login_init (config p) (random_device_id env (length (sent p)))))
      (set_authToken (Some "") p) = (Ok response, p1) /\
    json response = Some body /\
    login_token body = Some t /\
    p' = set_authToken t p1.
Proof.
  unfold authorize, authorize_with, bind, modify. simpl.
  destruct (fetch fuel env login_url _ _) as [[response | e |] p1] eqn:Hf;
    try discriminate.
  destruct (json response) as [body |] eqn:Hj; simpl; try discriminate.
  destruct (login_token body) as [t |] eqn:Ht; simpl; try discriminate.
  intros H. injection H as <-. now exists response, body, t, p1.
Qed.

(** ** Repeated 403 *)

Lemma count_logins_app l l' :
  count_logins (l ++ l') = (count_logins l + count_logins l')%nat.
Proof. unfold count_logins. now rewrite filter_app, length_app. Qed.

Lemma always_403_diverges fuel :
  forall input init p, fst (fetch fuel (always 403) input init p) = Diverge.
Proof.
  induction fuel as [| fuel IH]; intros input init p; [reflexivity |].
  rewrite (fetch_403 fuel (always 403) input init p (mkResponse 403 None))
    by reflexivity.
  apply bind_diverge. unfold authorize, authorize_with.
  unfold bind at 1, modify. cbv beta iota. apply bind_diverge, IH.
Qed.

Lemma expired_login fuel until p :
  authorize (S fuel) (expired until) p =
  (Ok tt,
   set_authToken (Some "fresh")
     (record_sent
        (build_request login_url
           (Some (login_init (config p) (fixed_device_id (length (sent p)))))
           (Some ""))
        (set_authToken (Some "") p))).
Proof. reflexivity. Qed.

Lemma expired_retries n :
  forall extra until input init p,
    String.eqb input login_url = false ->
    (length (sent p) + 2 * n)%nat = until ->
    exists p',
      fetch (S n + extra) (expired until) input init p = (Ok ok_response, p') /\
      count_logins (sent p') = (count_logins (sent p) + n)%nat /\
      length (sent p') = (length (sent p) + 2 * n + 1)%nat /\
      config p' = config p /\
      authToken p' = match n with O => authToken p | S _ => Some "fresh" end.
Proof.
  induction n as [| n IH]; intros extra until input init p Hin Hlen.
  - exists (record_sent (build_request input init (authToken p)) p).
    split; [| repeat split].
    + apply fetch_200; [| reflexivity]. simpl.
      rewrite is_login_build_request, Hin.
      replace (length (sent p) <? until)%nat with false; [reflexivity |].
      symmetry. apply Nat.ltb_ge. lia.
    + simpl. rewrite count_logins_app. unfold count_logins at 2. simpl.
      now rewrite is_login_build_request, Hin.
    + simpl. rewrite length_app. simpl. lia.
  - set (p1 := set_authToken (Some "")
                 (record_sent (build_request input init (authToken p)) p)).
    change (S (S n) + extra)%nat with (S (S (n + extra))).
    assert (H403 : fetch (S (S (n + extra))) (expired until) input init p =
                   (authorize (S (n + extra)) (expired until) ;;;
                    fetch (S (n + extra)) (expired until) input init) p1).
    { apply fetch_403 with (response := mkResponse 403 None); [| reflexivity].
      simpl. rewrite is_login_build_request, Hin.
      replace (length (sent p) <? until)%nat with true; [reflexivity |].
      symmetry. apply Nat.ltb_lt. lia. }
    rewrite H403. unfold bind at 1. rewrite expired_login.
    match goal with
    | |- context [fetch _ _ _ _ ?q] => set (p2 := q)
    end.
    assert (Hlen2 : length (sent p2) = (length (sent p) + 2)%nat).
    { subst p2 p1. simpl. rewrite !length_app. simpl. lia. }
    assert (Hcount2 : count_logins (sent p2) = (count_logins (sent p) + 1)%nat).
    { subst p2 p1. simpl. rewrite !count_logins_app. unfold count_logins at 2 3.
      simpl. rewrite is_login_build_request, Hin. simpl. lia. }
    destruct (IH extra until input init p2 Hin) as (p' & Hf & Hc & Hl & Hcfg & Ht).
    { rewrite Hlen2. lia. }
    exists p'. split; [exact Hf |]. repeat split.
    + rewrite Hc, Hcount2. lia.
    + rewrite Hl, Hlen2. lia.
    + rewrite Hcfg. reflexivity.
    + rewrite Ht. now destruct n.
Qed.

(** ** C1: re-authentication on 403 *)

(** C1, as stated, fails: the request is answered 403, the login succeeds,
    the retried request is answered 403 again, and the call does not throw
    a communication failure; it logs in a second time, sends the request a
    third time and returns its response. *)
Lemma second_403_is_retried_again :
  status_at (expired 4) (sent (snd rejected_twice)) 0 = Some 403 /\
  status_at (expired 4) (sent (snd rejected_twice)) 2 = Some 403 /\
  fst rejected_twice = Ok ok_response /\
  fst rejected_twice <> Throw (HapStatusError SERVICE_COMMUNICATION_FAILURE) /\
  count_logins (sent (snd rejected_twice)) = 2%nat /\
  length (sent (snd rejected_twice)) = 5%nat.
Proof. repeat split; try reflexivity. discriminate. Qed.

(** C1 (amended): a 403 clears the token, runs the login and retries the
    request through [fetch] itself, so the retry of a retry is not excluded.
    Against a server that rejects the request [n] times while every login
    succeeds, the call returns the accepted response after exactly [n]
    logins and [n + 1] attempts, holding the fresh token; against a server
    that answers 403 to everything no amount of fuel yields a result. *)
Theorem reauthentication_repeats_until_accepted n extra input init p :
  String.eqb input login_url = false ->
  (exists p',
     fetch (S n + extra) (expired (length (sent p) + 2 * n)) input init p
     = (Ok ok_response, p') /\
     count_logins (sent p') = (count_logins (sent p) + n)%nat /\
     length (sent p') = (length (sent p) + 2 * n + 1)%nat /\
     authToken p' = match n with O => authToken p | S _ => Some "fresh" end) /\
  (forall fuel, fst (fetch fuel (always 403) input init p) = Diverge).
Proof.
  intros Hin. split.
  - destruct (expired_retries n extra _ input init p Hin eq_refl)
      as (p' & Hf & Hc & Hl & _ & Ht).
    now exists p'.
  - intros fuel. apply always_403_diverges.
Qed.

Lemma reauthentication_repeats_until_accepted_witness :
  String.eqb (status_url 7) login_url = false /\
  (exists p',
     fetch 3 (expired 4) (status_url 7) None (new_platform example_config)
     = (Ok ok_response, p') /\
     count_logins (sent p') = 2%nat /\
     length (sent p') = 5%nat /\
     authToken p' = Some "fresh") /\
  (forall fuel,
     fst (fetch fuel (always 403) (status_url 7) None
            (new_platform example_config)) = Diverge).
Proof.
  split; [reflexivity |].
  apply (reauthentication_repeats_until_accepted 2 0 (status_url 7) None
           (new_platform example_config)).
  reflexivity.
Defined.

(** ** C3: the life of the token *)




(** ** C8: how failures are classified *)

(** C8: a 401 fails the call with INSUFFICIENT_AUTHORIZATION after the one
    request, with no login and the token untouched; a transport failure, and
    any other status that is not 200 (403 is the re-authentication of C1),
    fails it with SERVICE_COMMUNICATION_FAILURE in the same way. *)
Theorem fetch_error_classification fuel env input init p :
  let request := build_request input init (authToken p) in
  let fails_with e :=
    fetch (S fuel) env input init p
    = (Throw (HapStatusError e), record_sent request p) in
  (net env (sent p) request = NetworkFailure ->
   fails_with SERVICE_COMMUNICATION_FAILURE) /\
  (forall response,
     net env (sent p) request = Responded response ->
     (status response = 401 -> fails_with INSUFFICIENT_AUTHORIZATION) /\
     (status response <> 200 -> status response <> 401 ->
      status response <> 403 -> fails_with SERVICE_COMMUNICATION_FAILURE)) /\
  authToken (record_sent request p) = authToken p /\
  sent (record_sent request p) = (sent p ++ [request])%list /\
  INSUFFICIENT_AUTHORIZATION <> SERVICE_COMMUNICATION_FAILURE.
Proof.
  intros request fails_with. split; [| split; [| repeat split]].
  - apply fetch_transport_failure.
  - intros response H. split.
    + now apply fetch_401 with (response := response).
    + now apply fetch_other_status with (response := response).
  - discriminate.
Qed.

Lemma fetch_error_classification_witness :
  fetch 1 unreachable (status_url 7) None (new_platform example_config)
  = (Throw (HapStatusError SERVICE_COMMUNICATION_FAILURE),
     record_sent (build_request (status_url 7) None None)
       (new_platform example_config)) /\
  fetch 1 (always 401) (status_url 7) None (new_platform example_config)
  = (Throw (HapStatusError INSUFFICIENT_AUTHORIZATION),
     record_sent (build_request (status_url 7) None None)
       (new_platform example_config)) /\
  fetch 1 (always 204) (status_url 7) None (new_platform example_config)
  = (Throw (HapStatusError SERVICE_COMMUNICATION_FAILURE),
     record_sent (build_request (status_url 7) None None)
       (new_platform example_config)).
Proof.
  split; [| split].
  - apply (proj1 (fetch_error_classification 0 unreachable (status_url 7) None
                    (new_platform example_config))).
    reflexivity.
  - apply (proj1 (proj1 (proj2 (fetch_error_classification 0 (always 401)
                                  (status_url 7) None
                                  (new_platform example_config)))
                    (mkResponse 401 None) eq_refl)).
    reflexivity.
  - apply (proj2 (proj1 (proj2 (fetch_error_classification 0 (always 204)
                                  (status_url 7) None
                                  (new_platform example_config)))
                    (mkResponse 204 None) eq_refl)); simpl; lia.
Defined.

(** ** C9: unit conversion *)

Lemma Qc_of_Z_nonzero z : z <> 0 -> Qc_of_Z z <> Q2Qc 0.
Proof.
  intros Hz H. unfold Qc_of_Z in H. apply Q2Qc_eq_iff in H.
  unfold Qeq, inject_Z in H. simpl in H. lia.
Qed.

(** C9: the two conversions are the stated formulas, and converting a
    Fahrenheit value to Celsius and back gives the value itself; both are
    total functions of their argument alone. *)
Theorem conversion_roundtrip (t : Qc) :
  fToC t = ((t - Qc_of_Z 32) * Qc_of_Z 5 / Qc_of_Z 9)%Qc /\
  cToF t = (t * Qc_of_Z 9 / Qc_of_Z 5 + Qc_of_Z 32)%Qc /\
  cToF (fToC t) = t /\
  fToC (cToF t) = t.
Proof.
  assert (H5 := Qc_of_Z_nonzero 5 ltac:(lia)).
  assert (H9 := Qc_of_Z_nonzero 9 ltac:(lia)).
  unfold fToC, cToF. repeat split; field; auto.
Qed.

(** On doubles the same 21 degrees Celsius come out one unit in the last
    place above 69.8, and the round trip of 97 degrees Fahrenheit misses 97
    by less than 2^-40. *)
Lemma conversion_on_doubles :
  cToF_double 21 = 0x1.1733333333334p+6%float /\
  PrimFloat.eqb (cToF_double (fToC_double 97)) 97 = false /\
  PrimFloat.ltb (PrimFloat.abs (cToF_double (fToC_double 97) - 97)) 0x1p-40
  = true.
Proof. repeat split; reflexivity. Qed.

(** ** The accessory: what its methods may change *)

Lemma on_platform_data {A} (m : M Platform A) a :
  data (snd (on_platform m a)) = data a /\
  device_id (snd (on_platform m a)) = device_id a /\
  platform (snd (on_platform m a)) = snd (m (platform a)) /\
  fst (on_platform m a) = fst (m (platform a)).
Proof. unfold on_platform. now destruct (m (platform a)). Qed.

Lemma updateStatus_cases fuel env a :
  updateStatus fuel env a =
  match fetch fuel env (status_url (device_id a)) None (platform a) with
  | (Ok response, p') =>
      match json response with
      | Some body =>
          match status_data body with
          | Some v => (Ok tt, mkAccessory p' (device_id a) v)
          | None => (Throw JsError, mkAccessory p' (device_id a) (data a))
          end
      | None => (Throw JsError, mkAccessory p' (device_id a) (data a))
      end
  | (Throw e, p') => (Throw e, mkAccessory p' (device_id a) (data a))
  | (Diverge, p') => (Diverge, mkAccessory p' (device_id a) (data a))
  end.
Proof.
  unfold updateStatus, bind, on_platform.
  destruct (fetch fuel env _ None (platform a)) as [[response | e |] p'];
    try reflexivity.
  destruct (json response) as [body |]; [| reflexivity].
  destruct (status_data body); reflexivity.
Qed.

Lemma guardedOnlineData_state a : snd (guardedOnlineData a) = a.
Proof. unfold guardedOnlineData. now destruct (data a). Qed.

Lemma poll_state fuel env a :
  fst (poll fuel env a) = snd (updateStatus fuel env a).
Proof. unfold poll. now destruct (updateStatus fuel env a) as [[[] | e |] a']. Qed.

Lemma updateStatus_ok fuel env a a' :
  updateStatus fuel env a = (Ok tt, a') ->
  device_id a' = device_id a /\ holds_status_answer env a'.
Proof.
  rewrite updateStatus_cases.
  destruct (fetch fuel env _ None (platform a)) as [[response | e |] p'] eqn:Hf;
    try discriminate.
  destruct (json response) as [body |] eqn:Hj; try discriminate.
  destruct (status_data body) as [v |] eqn:Hv; try discriminate.
  intros H. injection H as <-. split; [reflexivity |].
  destruct (fetch_ok_is_last_answer fuel env _ _ _ _ _ Hf)
    as (H200 & l & q & Hs & Hu & Hn).
  exists l, q, response, body. simpl. repeat split; assumption.
Qed.

Lemma updateStatus_unless_ok fuel env a res a' :
  updateStatus fuel env a = (res, a') -> res <> Ok tt -> data a' = data a.
Proof.
  rewrite updateStatus_cases.
  destruct (fetch fuel env _ None (platform a)) as [[response | e |] p'].
  - destruct (json response) as [body |].
    + destruct (status_data body) as [v |]; intros H Hres;
        injection H as <- <-; [now contradiction Hres | reflexivity].
    + intros H _. now injection H as <- <-.
  - intros H _. now injection H as <- <-.
  - intros H _. now injection H as <- <-.
Qed.

Lemma updateStatus_writes fuel env a :
  data (snd (updateStatus fuel env a)) = data a \/
  holds_status_answer env (snd (updateStatus fuel env a)).
Proof.
  destruct (updateStatus fuel env a) as [[[] | e |] a'] eqn:H; simpl.
  - right. now apply updateStatus_ok in H.
  - left. apply (updateStatus_unless_ok _ _ _ _ _ H). discriminate.
  - left. apply (updateStatus_unless_ok _ _ _ _ _ H). discriminate.
Qed.

Lemma updateThermostat_writes fuel env body a :
  data (snd (updateThermostat fuel env body a)) = data a \/
  holds_status_answer env (snd (updateThermostat fuel env body a)).
Proof.
  unfold updateThermostat, bind.
  destruct (on_platform_data
              (fetch fuel env (update_temperature_url (device_id a))
                 (Some (patch_json (ThermostatJson body)))) a) as (Hd & _).
  destruct (on_platform _ a) as [[response | e |] a1]; simpl in Hd |- *; auto.
  destruct (json response); simpl; auto.
  rewrite <- Hd. apply updateStatus_writes.
Qed.

Lemma updateNightLightSettings_cases fuel env settings a :
  updateNightLightSettings fuel env settings a =
  match data a with
  | Null => (Throw (HapStatusError RESOURCE_BUSY), a)
  | Loaded d =>
      (on_platform
         (fetch fuel env (night_light_url (device_id a))
            (Some (patch_json
                     (NightLightJson
                        (merge (night_light_setting d) settings))))) ;;;
       updateStatus fuel env) a
  | Untyped => (Throw JsError, a)
  end.
Proof.
  unfold updateNightLightSettings. unfold bind at 1, guardedOnlineData.
  now destruct (data a).
Qed.

Lemma targetTemperature_onSet_cases fuel env value a :
  targetTemperature_onSet fuel env value a =
  match data a with
  | Null => (Throw (HapStatusError RESOURCE_BUSY), a)
  | Loaded d =>
      updateThermostat fuel env
        (SetTemperature
           (match temperature_unit d with
            | F => cToF value
            | C => value
            end)) a
  | Untyped => (Throw JsError, a)
  end.
Proof.
  unfold targetTemperature_onSet. unfold bind at 1, guardedOnlineData.
  now destruct (data a).
Qed.

Lemma updateNightLightSettings_writes fuel env settings a :
  data (snd (updateNightLightSettings fuel env settings a)) = data a \/
  holds_status_answer env (snd (updateNightLightSettings fuel env settings a)).
Proof.
  rewrite updateNightLightSettings_cases.
  destruct (data a) as [| d |] eqn:Hdata; cbn [snd]; auto.
  unfold bind.
  destruct (on_platform_data
              (fetch fuel env (night_light_url (device_id a))
                 (Some (patch_json
                          (NightLightJson
                             (merge (night_light_setting d) settings))))) a)
    as (Hd & _).
  destruct (on_platform _ a) as [[response | e |] a1]; cbn [snd] in Hd |- *;
    try (left; congruence).
  rewrite <- Hdata, <- Hd. apply updateStatus_writes.
Qed.

(** Every call writes [data] from the answer to a status request, or not at
    all. *)
Lemma call_writes fuel env c a :
  data (call fuel env c a) = data a \/
  holds_status_answer env (call fuel env c a).
Proof.
  destruct c as [| body | value | settings]; cbn [call].
  - rewrite poll_state. apply updateStatus_writes.
  - apply updateThermostat_writes.
  - rewrite targetTemperature_onSet_cases.
    destruct (data a) as [| d |] eqn:Hdata; cbn [snd]; auto.
    rewrite <- Hdata. apply updateThermostat_writes.
  - apply updateNightLightSettings_writes.
Qed.

(** ** C4: the guarded read *)

(** C4, as stated, fails: an accessory polled once holds a snapshot and the
    read returns it; polled again and answered 200 with [{ data: null }] it
    holds [null], and the read throws RESOURCE_BUSY although a snapshot has
    been loaded. *)
Lemma a_null_answer_unloads :
  guardedOnlineData polled_once = (Ok (example_snapshot F 1), polled_once) /\
  forallb (fun s => negb (loaded s))
    (states 1 (serving_then_null (example_snapshot F 1)) [CallPoll; CallPoll]
       (example_accessory Null)) = false /\
  status_at (serving_then_null (example_snapshot F 1))
    (sent (platform polled_twice)) 1 = Some 200 /\
  guardedOnlineData polled_twice
  = (Throw (HapStatusError RESOURCE_BUSY), polled_twice).
Proof. repeat split. Qed.

(** C4 (amended): the guarded read throws RESOURCE_BUSY exactly when [data]
    holds [null]; when it holds a snapshot the read returns it, whatever
    its [device_status], and leaves the accessory as it is.  [data] holds
    [null] in a new accessory, and a call leaves [null] there only if it
    found [null] or if the last status request was answered 200 with
    [{ data: null }]. *)
Theorem guarded_read_fails_iff_null fuel env c a :
  (guardedOnlineData a = (Throw (HapStatusError RESOURCE_BUSY), a) <->
   data a = Null) /\
  (forall d, data a = Loaded d -> guardedOnlineData a = (Ok d, a)) /\
  data (new_accessory (platform a) (device_id a)) = Null /\
  (data (call fuel env c a) = Null ->
   data a = Null \/
   exists l q response,
     sent (platform (call fuel env c a)) = (l ++ [q])%list /\
     req_url q = status_url (device_id (call fuel env c a)) /\
     net env l q = Responded response /\
     status response = 200 /\
     json response = Some NullDataJson).
Proof.
  split; [| split; [| split]].
  - unfold guardedOnlineData, throw, ret.
    destruct (data a); split; intros H; try reflexivity; discriminate.
  - intros d Hd. unfold guardedOnlineData. now rewrite Hd.
  - reflexivity.
  - intros Hnull. destruct (call_writes fuel env c a) as [Hsame | Hw].
    + left. congruence.
    + right. destruct Hw as (l & q & response & body & Hs & Hu & Hn & H200
                             & Hj & Hv).
      exists l, q, response. repeat split; try assumption.
      rewrite Hnull in Hv. destruct body; try discriminate. exact Hj.
Qed.

Lemma guarded_read_fails_iff_null_witness :
  device_status (example_snapshot C 0) = 0 /\
  guardedOnlineData (example_accessory (Loaded (example_snapshot C 0)))
  = (Ok (example_snapshot C 0),
     example_accessory (Loaded (example_snapshot C 0))) /\
  (data polled_once = Null \/
   exists l q response,
     sent (platform polled_twice) = (l ++ [q])%list /\
     req_url q = status_url (device_id polled_twice) /\
     net (serving_then_null (example_snapshot F 1)) l q = Responded response /\
     status response = 200 /\
     json response = Some NullDataJson).
Proof.
  split; [reflexivity |]. split.
  - apply (proj1 (proj2 (guarded_read_fails_iff_null 1 (always 500) CallPoll
                           (example_accessory
                              (Loaded (example_snapshot C 0)))))).
    reflexivity.
  - apply (proj2 (proj2 (proj2 (guarded_read_fails_iff_null 1
                                  (serving_then_null (example_snapshot F 1))
                                  CallPoll polled_once)))).
    reflexivity.
Defined.

(** ** C5: who writes the snapshot *)



(** ** C6: the poll loop *)







(** ** The first request of a setter *)

Lemma acc_extends_refl a : acc_extends a a.
Proof. split; [reflexivity | apply extends_refl]. Qed.

Lemma acc_extends_trans a b c :
  acc_extends a b -> acc_extends b c -> acc_extends a c.
Proof.
  intros [Hi He] [Hi' He']. split; [congruence |].
  eapply extends_trans; eassumption.
Qed.

Lemma on_platform_extends {A} (m : M Platform A) :
  preserves extends m -> preserves acc_extends (on_platform m).
Proof.
  intros Hm a. destruct (on_platform_data m a) as (_ & Hi & Hp & _).
  split; [exact Hi |]. rewrite Hp. apply Hm.
Qed.

Lemma updateStatus_extends fuel env : preserves acc_extends (updateStatus fuel env).
Proof.
  intros a. unfold updateStatus.
  through_bind acc_extends acc_extends_trans.
  - apply on_platform_extends, fetch_extends.
  - intros response s.
    destruct (json response) as [body |];
      [destruct (status_data body) |];
      (split; [reflexivity | apply extends_refl]).
Qed.

Lemma first_request_stable a a1 a2 request :
  first_request a a1 = Some request -> acc_extends a1 a2 ->
  first_request a a2 = Some request.
Proof.
  unfold first_request, nth_sent. intros H [_ [_ [l Hl]]]. rewrite Hl.
  rewrite nth_error_app1; [exact H |].
  apply nth_error_Some. congruence.
Qed.

(** A request through the client followed by anything that only adds
    requests. *)
Lemma first_request_of_fetch {B} fuel env url init
    (k : Response -> M Accessory B) a :
  (forall response, preserves acc_extends (k response)) ->
  first_request a
    (snd ((response <- on_platform (fetch (S fuel) env url init) ;; k response) a))
  = Some (build_request url init (authToken (platform a))).
Proof.
  intros Hk.
  assert (H1 : first_request a (snd (on_platform (fetch (S fuel) env url init) a))
               = Some (build_request url init (authToken (platform a)))).
  { unfold first_request.
    rewrite (proj1 (proj2 (proj2 (on_platform_data _ a)))).
    apply fetch_first_request. }
  unfold bind.
  destruct (on_platform (fetch (S fuel) env url init) a) as [[response | e |] a1];
    simpl in *; try exact H1.
  eapply first_request_stable; [exact H1 | apply Hk].
Qed.

Lemma sends_first_build a a' url body t :
  first_request a a' = Some (build_request url (Some (patch_json body)) t) ->
  sends_first a a' PATCH url body.
Proof.
  intros H. eexists. split; [exact H |]. repeat split.
Qed.

Lemma updateThermostat_first fuel env body a :
  sends_first a (snd (updateThermostat (S fuel) env body a)) PATCH
    (update_temperature_url (device_id a)) (ThermostatJson body).
Proof.
  eapply sends_first_build. unfold updateThermostat.
  apply first_request_of_fetch. intros response.
  destruct (json response).
  - apply updateStatus_extends.
  - intros s. apply acc_extends_refl.
Qed.

Lemma updateNightLightSettings_first fuel env settings a d :
  data a = Loaded d ->
  sends_first a (snd (updateNightLightSettings (S fuel) env settings a)) PATCH
    (night_light_url (device_id a))
    (NightLightJson (merge (night_light_setting d) settings)).
Proof.
  intros Hd. eapply sends_first_build. unfold updateNightLightSettings.
  unfold bind at 1, guardedOnlineData. rewrite Hd. unfold ret.
  apply first_request_of_fetch. intros _. apply updateStatus_extends.
Qed.

(** ** C7: the night-light write *)

(** C7: with a snapshot held, [updateNightLightSettings(settings)] first
    sends a PATCH to the night-light endpoint whose body has, for each of
    brightness, auto, on, off and color, the value given in [settings] when
    there is one and the value of the snapshot's night-light object
    otherwise; when that request succeeds, what remains is
    [updateStatus()].  Brightness 50 over the example object changes the
    brightness alone. *)
Theorem night_light_patch_is_merged_object fuel env settings a d :
  data a = Loaded d ->
  (exists body,
     sends_first a (snd (updateNightLightSettings (S fuel) env settings a))
       PATCH (night_light_url (device_id a)) (NightLightJson body) /\
     brightness body
     = match p_brightness settings with
       | Some x => x
       | None => brightness (night_light_setting d)
       end /\
     auto body
     = match p_auto settings with
       | Some x => x
       | None => auto (night_light_setting d)
       end /\
     on body
     = match p_on settings with
       | Some x => x
       | None => on (night_light_setting d)
       end /\
     off body
     = match p_off settings with
       | Some x => x
       | None => off (night_light_setting d)
       end /\
     color body
     = match p_color settings with
       | Some x => x
       | None => color (night_light_setting d)
       end /\
     forall response p',
       fetch (S fuel) env (night_light_url (device_id a))
         (Some (patch_json (NightLightJson body))) (platform a)
       = (Ok response, p') ->
       updateNightLightSettings (S fuel) env settings a
       = updateStatus (S fuel) env (mkAccessory p' (device_id a) (data a))) /\
  merge example_night_light brightness_50
  = mkNightLight (Qc_of_Z 50) false true false (mkColor 1 2 3).
Proof.
  intros Hd. split; [| reflexivity].
  exists (merge (night_light_setting d) settings).
  split; [now apply updateNightLightSettings_first |].
  repeat (split; [reflexivity |]).
  intros response p' Hf. rewrite updateNightLightSettings_cases, Hd.
  unfold bind at 1. unfold on_platform at 1. now rewrite Hf, Hd.
Qed.

Lemma night_light_patch_is_merged_object_witness :
  exists body,
    sends_first (example_accessory (Loaded (example_snapshot F 1)))
      (snd (updateNightLightSettings 1 (serving (example_snapshot F 1) 7)
              brightness_50
              (example_accessory (Loaded (example_snapshot F 1)))))
      PATCH (night_light_url 7) (NightLightJson body) /\
    brightness body = Qc_of_Z 50 /\
    auto body = false /\ on body = true /\ off body = false /\
    color body = mkColor 1 2 3.
Proof.
  destruct (proj1 (night_light_patch_is_merged_object 0
                     (serving (example_snapshot F 1) 7) brightness_50
                     (example_accessory (Loaded (example_snapshot F 1)))
                     (example_snapshot F 1) eq_refl))
    as (body & Hs & Hb & Ha & Hon & Hoff & Hc & _).
  exists body. repeat split; assumption.
Defined.

(** ** C10: the night-light On characteristic *)

(** C10: with a snapshot held, the getter returns the negation of its [off]
    flag, a function of that flag alone; the setter called with [value]
    PATCHes the night-light object with [on] set to [value], [off] to its
    negation and [auto] to false, brightness and colour as in the snapshot. *)
Theorem night_light_on_characteristic fuel env value a d :
  data a = Loaded d ->
  nightLightOn_onGet a = (Ok (negb (off (night_light_setting d))), a) /\
  sends_first a (snd (nightLightOn_onSet (S fuel) env value a)) PATCH
    (night_light_url (device_id a))
    (NightLightJson
       (mkNightLight (brightness (night_light_setting d)) false value
          (negb value) (color (night_light_setting d)))).
Proof.
  intros Hd. split.
  - unfold nightLightOn_onGet, bind, guardedOnlineData. now rewrite Hd.
  - unfold nightLightOn_onSet.
    exact (updateNightLightSettings_first fuel env
             (mkPartialNightLight None (Some false) (Some value)
                (Some (negb value)) None) a d Hd).
Qed.

Lemma night_light_on_characteristic_witness :
  on all_flags_night_light = true /\
  nightLightOn_onGet (example_accessory (Loaded all_flags_snapshot))
  = (Ok false, example_accessory (Loaded all_flags_snapshot)) /\
  sends_first (example_accessory (Loaded all_flags_snapshot))
    (snd (nightLightOn_onSet 1 (serving all_flags_snapshot 7) true
            (example_accessory (Loaded all_flags_snapshot))))
    PATCH (night_light_url 7)
    (NightLightJson (mkNightLight (Qc_of_Z 10) false true false (mkColor 1 2 3))).
Proof.
  split; [reflexivity |].
  apply (night_light_on_characteristic 0 (serving all_flags_snapshot 7) true
           (example_accessory (Loaded all_flags_snapshot)) all_flags_snapshot
           eq_refl).
Defined.

(** ** C2: the target temperature *)

Lemma cToF_21 : cToF (Qc_of_Z 21) = Q2Qc (698 # 10).
Proof. apply Qc_is_canon. reflexivity. Qed.

Lemma cToF_70 : cToF (Qc_of_Z 70) = Qc_of_Z 158.
Proof. apply Qc_is_canon. reflexivity. Qed.

(** C2, as stated, fails on a device whose snapshot reports C: the setter
    called with 21 dispatches 21, not 69.8.  The conversion is applied on a
    device that reports F instead: there the setter called with 70
    dispatches 158. *)
Lemma celsius_device_gets_the_value_unconverted :
  sends_first (example_accessory (Loaded (example_snapshot C 1))) (set_target C 21)
    PATCH (update_temperature_url 7)
    (ThermostatJson (SetTemperature (Qc_of_Z 21))) /\
  Qc_of_Z 21 <> Q2Qc (698 # 10) /\
  sends_first (example_accessory (Loaded (example_snapshot F 1))) (set_target F 70)
    PATCH (update_temperature_url 7)
    (ThermostatJson (SetTemperature (cToF (Qc_of_Z 70)))) /\
  cToF (Qc_of_Z 70) <> Qc_of_Z 70.
Proof.
  split; [| split; [| split]].
  - eexists. repeat split.
  - intros H. apply (f_equal this) in H. discriminate.
  - eexists. repeat split.
  - rewrite cToF_70. intros H. apply (f_equal this) in H. discriminate.
Qed.

(** C2 (amended): with a snapshot held, the setter called with a Celsius
    [value] PATCHes [{temperature: cToF(value)}] when the snapshot reports F
    and [{temperature: value}] when it reports C; [updateThermostat] itself
    sends the temperature it is given; 21 degrees Celsius is 69.8 degrees
    Fahrenheit. *)
Theorem target_temperature_conversion fuel env value a d :
  data a = Loaded d ->
  sends_first a (snd (targetTemperature_onSet (S fuel) env value a)) PATCH
    (update_temperature_url (device_id a))
    (ThermostatJson
       (SetTemperature
          (match temperature_unit d with
           | F => cToF value
           | C => value
           end))) /\
  sends_first a (snd (updateThermostat (S fuel) env (SetTemperature value) a))
    PATCH (update_temperature_url (device_id a))
    (ThermostatJson (SetTemperature value)) /\
  cToF (Qc_of_Z 21) = Q2Qc (698 # 10).
Proof.
  intros Hd. split; [| split].
  - unfold targetTemperature_onSet.
    unfold bind at 1, guardedOnlineData. rewrite Hd. unfold ret.
    destruct (temperature_unit d); apply updateThermostat_first.
  - apply updateThermostat_first.
  - exact cToF_21.
Qed.

Lemma target_temperature_conversion_witness :
  sends_first (example_accessory (Loaded (example_snapshot F 1)))
    (snd (targetTemperature_onSet 1 (serving (example_snapshot F 1) 7)
            (Qc_of_Z 21) (example_accessory (Loaded (example_snapshot F 1)))))
    PATCH (update_temperature_url 7)
    (ThermostatJson (SetTemperature (cToF (Qc_of_Z 21)))).
Proof.
  apply (proj1 (target_temperature_conversion 0
                  (serving (example_snapshot F 1) 7) (Qc_of_Z 21)
                  (example_accessory (Loaded (example_snapshot F 1)))
                  (example_snapshot F 1) eq_refl)).
Defined.

(** * Further properties of the two files *)

(** ** Strings *)

(** Case analysis over the 256 bytes. *)
Ltac each_byte c :=
  destruct c as [[] [] [] [] [] [] [] []]; try reflexivity; try discriminate.

Lemma all_chars_app P a b :
  all_chars P (a ++ b) = all_chars P a && all_chars P b.
Proof.
  induction a as [| c a IH]; simpl; [reflexivity |].
  now rewrite IH, andb_assoc.
Qed.

Lemma all_chars_weaken (P Q : ascii -> bool) s :
  (forall c, P c = true -> Q c = true) ->
  all_chars P s = true -> all_chars Q s = true.
Proof.
  intros HPQ. induction s as [| c s IH]; simpl; [reflexivity |].
  intros H. apply andb_true_iff in H. destruct H as [Hc Hs].
  now rewrite (HPQ c Hc), IH.
Qed.

Lemma sanitizeName_all s : all_chars is_name_char (sanitizeName s) = true.
Proof.
  induction s as [| c s IH]; simpl; [reflexivity |].
  destruct (is_name_char c) eqn:Hc; simpl; [now rewrite Hc |]. exact IH.
Qed.

Lemma sanitizeName_fixed s :
  sanitizeName s = s <-> all_chars is_name_char s = true.
Proof.
  split.
  - intros H. rewrite <- H. apply sanitizeName_all.
  - induction s as [| c s IH]; simpl; [reflexivity |].
    intros H. apply andb_true_iff in H. destruct H as [Hc Hs].
    now rewrite Hc, IH.
Qed.

Lemma sanitizeName_length s : (String.length (sanitizeName s) <= String.length s)%nat.
Proof.
  induction s as [| c s IH]; simpl; [lia |].
  destruct (is_name_char c); simpl; lia.
Qed.

Lemma sanitizeName_app a b :
  sanitizeName (a ++ b) = sanitizeName a ++ sanitizeName b.
Proof.
  induction a as [| c a IH]; simpl; [reflexivity |].
  destruct (is_name_char c); simpl; now rewrite IH.
Qed.

Lemma sanitizeName_filter s :
  list_ascii_of_string (sanitizeName s)
  = filter is_name_char (list_ascii_of_string s).
Proof.
  induction s as [| c s IH]; simpl; [reflexivity |].
  destruct (is_name_char c); simpl; now rewrite IH.
Qed.

(** [sanitizeName]: the result is the name with every character other than
    a letter, a digit, a space or an apostrophe removed and the others kept
    in place and order.  So it is made of such characters only; it is the
    name itself exactly when the name is made of them, and sanitizing twice
    changes nothing more; it works piece by piece and never lengthens. *)
Theorem sanitizeName_keeps_name_characters (a b : string) :
  list_ascii_of_string (sanitizeName a)
  = filter is_name_char (list_ascii_of_string a) /\
  all_chars is_name_char (sanitizeName a) = true /\
  (sanitizeName a = a <-> all_chars is_name_char a = true) /\
  sanitizeName (sanitizeName a) = sanitizeName a /\
  sanitizeName (a ++ b) = sanitizeName a ++ sanitizeName b /\
  (String.length (sanitizeName a) <= String.length a)%nat.
Proof.
  split; [apply sanitizeName_filter |].
  split; [apply sanitizeName_all |]. split; [apply sanitizeName_fixed |].
  split; [apply sanitizeName_fixed, sanitizeName_all |].
  split; [apply sanitizeName_app | apply sanitizeName_length].
Qed.

Lemma sanitizeName_keeps_name_characters_witness :
  sanitizeName "Bob's heater" = "Bob's heater" /\
  sanitizeName "Bob's heater #2 (den)!" = "Bob's heater 2 den".
Proof.
  split; [| reflexivity].
  apply (proj2 (proj1 (proj2 (proj2 (sanitizeName_keeps_name_characters
                                       "Bob's heater" ""))))).
  reflexivity.
Defined.

Lemma escape_stars_app a b :
  escape_stars (a ++ b) = escape_stars a ++ escape_stars b.
Proof.
  induction a as [| c a IH]; simpl; [reflexivity |].
  destruct (Ascii.eqb c "*"); simpl; now rewrite IH.
Qed.

Lemma escape_stars_percent c : escape_stars (percent c) = percent c.
Proof. each_byte c. Qed.

Lemma percent_safe c : all_chars is_form_safe (percent c) = true.
Proof. each_byte c. Qed.

Lemma unreserved_safe c :
  is_unreserved c = true -> Ascii.eqb c "*" = false ->
  is_form_safe c = true /\ Ascii.eqb c "%" = false.
Proof. each_byte c; now split. Qed.

Lemma percent_read_back c s :
  unescape (percent c ++ s) = String c (unescape s).
Proof.
  unfold percent. cbn [append unescape]. rewrite Ascii.eqb_refl. f_equal.
  each_byte c.
Qed.

(** One byte of a value, encoded. *)
Lemma encode_value_cons c s :
  encode_value (String c s) =
  (if is_unreserved c && negb (Ascii.eqb c "*")
   then String c EmptyString else percent c) ++ encode_value s.
Proof.
  unfold encode_value. cbn [encodeURIComponent]. rewrite escape_stars_app.
  f_equal. destruct (is_unreserved c) eqn:Hu; simpl.
  - destruct (Ascii.eqb_spec c "*") as [-> | Hne]; reflexivity.
  - apply escape_stars_percent.
Qed.

Lemma encode_value_safe s : all_chars is_form_safe (encode_value s) = true.
Proof.
  induction s as [| c s IH]; [reflexivity |].
  rewrite encode_value_cons, all_chars_app, IH, andb_true_r.
  destruct (is_unreserved c) eqn:Hu; simpl; [| apply percent_safe].
  destruct (Ascii.eqb c "*") eqn:Hs; simpl; [apply (percent_safe c) |].
  now rewrite (proj1 (unreserved_safe c Hu Hs)).
Qed.

Lemma unescape_encode_value s : unescape (encode_value s) = s.
Proof.
  induction s as [| c s IH]; [reflexivity |].
  rewrite encode_value_cons.
  destruct (is_unreserved c) eqn:Hu; destruct (Ascii.eqb c "*") eqn:Hs;
    cbn [andb negb]; try now rewrite percent_read_back, IH.
  cbn [append unescape].
  now rewrite (proj2 (unreserved_safe c Hu Hs)), IH.
Qed.

Lemma count_char_app c a b :
  count_char c (a ++ b) = (count_char c a + count_char c b)%nat.
Proof.
  induction a as [| c' a IH]; simpl; [reflexivity |]. rewrite IH. lia.
Qed.

Lemma count_char_absent c s :
  is_form_safe c = false -> all_chars is_form_safe s = true ->
  count_char c s = 0%nat.
Proof.
  intros Hc. induction s as [| c' s IH]; simpl; [reflexivity |].
  intros H. apply andb_true_iff in H. destruct H as [Hc' Hs].
  destruct (Ascii.eqb_spec c c') as [-> | Hne]; [congruence |].
  now rewrite IH.
Qed.

(** The login form: the fields are those of [login_init]; whatever the
    credentials and the device identifier hold, an encoded value has no
    [&], [=] or [*] in it, so the body has its five fields and no more. *)
Theorem login_form_has_five_fields cfg device_id :
  init_body (login_init cfg device_id)
  = Some (FormBody (login_fields cfg device_id)) /\
  (forall value, all_chars is_form_safe (encode_value value) = true) /\
  count_char "&" (login_form (login_fields cfg device_id)) = 4%nat /\
  count_char "=" (login_form (login_fields cfg device_id)) = 5%nat.
Proof.
  split; [reflexivity |]. split; [apply encode_value_safe |].
  unfold login_form, login_fields. cbn [map join fst snd].
  assert (Hnone : forall c value,
             is_form_safe c = false -> count_char c (encode_value value) = 0%nat).
  { intros c value Hc. apply count_char_absent; [exact Hc |].
    apply encode_value_safe. }
  split; repeat rewrite count_char_app; rewrite !Hnone by reflexivity;
    reflexivity.
Qed.

(** The encoding of a value loses nothing: it reads back as the value, so
    two values with the same encoding are the same. *)
Theorem encode_value_injective a b :
  encode_value a = encode_value b -> a = b.
Proof.
  intros H. rewrite <- (unescape_encode_value a), <- (unescape_encode_value b).
  now rewrite H.
Qed.

Lemma encode_value_injective_witness :
  encode_value "p&ss=w*rd" = "p%26ss%3Dw%2Ard" /\ "p&ss=w*rd" = "p&ss=w*rd".
Proof.
  split; [reflexivity |].
  apply (encode_value_injective "p&ss=w*rd" "p&ss=w*rd"). reflexivity.
Defined.

(** ** The client: headers *)

Lemma get_set_property_same k v o :
  get_property k (set_property k v o) = Some v.
Proof.
  induction o as [| [k' v'] o IH]; simpl.
  - now rewrite String.eqb_refl.
  - destruct (String.eqb k k') eqn:Hk; simpl.
    + now rewrite String.eqb_refl.
    + now rewrite Hk.
Qed.

Lemma get_set_property_other k k' v o :
  k' <> k -> get_property k' (set_property k v o) = get_property k' o.
Proof.
  intros Hne. induction o as [| [k'' v''] o IH]; simpl.
  - destruct (String.eqb_spec k' k); [contradiction | reflexivity].
  - destruct (String.eqb_spec k k'') as [<- | Hk]; simpl.
    + destruct (String.eqb_spec k' k); [contradiction | reflexivity].
    + now rewrite IH.
Qed.

Lemma build_request_headers input init t :
  req_headers (build_request input init t)
  = spread (headers_of init) (authorization t).
Proof. destruct init; reflexivity. Qed.

(** What [fetch] puts in the headers of the first request of a call: with a
    token held, [Authorization] is [Bearer] and the token, over whatever the
    caller gave under that name, and every other header is the caller's;
    with no token, or the empty one, the headers are the caller's as they
    are. *)
Theorem fetch_attaches_the_token fuel env input init p :
  nth_sent (length (sent p)) (snd (fetch (S fuel) env input init p))
  = Some (build_request input init (authToken p)) /\
  (forall token,
     authToken p = Some token -> token <> "" ->
     get_property "Authorization"
       (req_headers (build_request input init (authToken p)))
     = Some ("Bearer " ++ token) /\
     forall k, k <> "Authorization" ->
       get_property k (req_headers (build_request input init (authToken p)))
       = get_property k (headers_of init)) /\
  (authToken p = None \/ authToken p = Some "" ->
   req_headers (build_request input init (authToken p)) = headers_of init).
Proof.
  split; [apply fetch_first_request |]. rewrite build_request_headers. split.
  - intros token Ht Hne. rewrite Ht.
    assert (Ha : authorization (Some token)
                 = [("Authorization", "Bearer " ++ token)]).
    { destruct token; [contradiction | reflexivity]. }
    rewrite Ha. unfold spread. cbn [fold_left fst snd]. split.
    + apply get_set_property_same.
    + intros k Hk. now apply get_set_property_other.
  - intros [-> | ->]; reflexivity.
Qed.

Lemma fetch_attaches_the_token_witness :
  get_property "Authorization"
    (req_headers
       (build_request (status_url 7)
          (Some (mkInit None [("Authorization", "Basic abc"); ("Accept", "*/*")]
                   None))
          (authToken (set_authToken (Some "tok") (new_platform example_config)))))
  = Some "Bearer tok".
Proof.
  apply (proj1 (proj1 (proj2 (fetch_attaches_the_token 0 (always 200)
                                (status_url 7)
                                (Some (mkInit None
                                         [("Authorization", "Basic abc");
                                          ("Accept", "*/*")] None))
                                (set_authToken (Some "tok")
                                   (new_platform example_config))))
                  "tok" eq_refl ltac:(discriminate))).
Defined.

(** ** The client: what a call returns and whom it contacts *)

(** [fetch] resolves with nothing but a 200 response, and that response is
    the answer of the server to the last request sent, a request for the URL
    of the call. *)
Theorem fetch_resolves_with_the_last_answer fuel env input init p response p' :
  fetch fuel env input init p = (Ok response, p') ->
  status response = 200 /\
  exists l q,
    sent p' = (l ++ [q])%list /\ req_url q = input /\
    net env l q = Responded response.
Proof. apply fetch_ok_is_last_answer. Qed.

Lemma fetch_resolves_with_the_last_answer_witness :
  status ok_response = 200 /\
  exists l q,
    sent (snd rejected_twice) = (l ++ [q])%list /\
    req_url q = status_url 7 /\
    net (expired 4) l q = Responded ok_response.
Proof.
  apply (fetch_resolves_with_the_last_answer 3 (expired 4) (status_url 7) None
           (new_platform example_config) ok_response (snd rejected_twice)).
  reflexivity.
Defined.

Lemma adds_only_refl P p : adds_only P p p.
Proof. split; [reflexivity |]. exists []. now rewrite app_nil_r. Qed.

Lemma adds_only_trans P p q s :
  adds_only P p q -> adds_only P q s -> adds_only P p s.
Proof.
  intros [Hc (l & Hl & Pl)] [Hc' (l' & Hl' & Pl')]. split; [congruence |].
  exists (l ++ l')%list. split.
  - now rewrite Hl', Hl, app_assoc.
  - now rewrite forallb_app, Pl, Pl'.
Qed.

Lemma adds_only_weaken (P Q : Request -> bool) p p' :
  (forall q, P q = true -> Q q = true) ->
  adds_only P p p' -> adds_only Q p p'.
Proof.
  intros HPQ [Hc (l & Hl & Pl)]. split; [exact Hc |]. exists l.
  split; [exact Hl |]. rewrite forallb_forall in *. auto.
Qed.

Lemma adds_only_set_authToken P t p : adds_only P p (set_authToken t p).
Proof. split; [reflexivity |]. exists []. simpl. now rewrite app_nil_r. Qed.

Lemma adds_only_record_sent (P : Request -> bool) q p :
  P q = true -> adds_only P p (record_sent q p).
Proof.
  intros Hq. split; [reflexivity |]. exists [q]. simpl. now rewrite Hq.
Qed.

Lemma goes_to_head input urls init t :
  goes_to (input :: urls) (build_request input init t) = true.
Proof.
  unfold goes_to. simpl. now rewrite build_request_url, String.eqb_refl.
Qed.

Lemma authorize_with_adds fetch_ env :
  (forall input init,
     preserves (adds_only (goes_to [input; login_url])) (fetch_ input init)) ->
  preserves (adds_only (goes_to [login_url])) (authorize_with fetch_ env).
Proof.
  intros Hf p. unfold authorize_with.
  through_bind (adds_only (goes_to [login_url]))
               (adds_only_trans (goes_to [login_url])).
  - intros s. apply adds_only_set_authToken.
  - intros _.
    through_bind (adds_only (goes_to [login_url]))
                 (adds_only_trans (goes_to [login_url])).
    + intros s. eapply adds_only_weaken; [| apply Hf].
      intros q. unfold goes_to. simpl. now destruct (String.eqb (req_url q) login_url).
    + intros response s.
      destruct (json response) as [body |]; [| apply adds_only_refl].
      destruct (login_token body); simpl;
        (apply adds_only_set_authToken || apply adds_only_refl).
Qed.

Lemma fetch_adds fuel env :
  forall input init,
    preserves (adds_only (goes_to [input; login_url])) (fetch fuel env input init).
Proof.
  induction fuel as [| fuel IH]; intros input init p.
  - apply adds_only_refl.
  - rewrite fetch_unfold. cbv zeta.
    set (request := build_request input init (authToken p)).
    assert (Hrec : adds_only (goes_to [input; login_url]) p
                     (record_sent request p))
      by apply adds_only_record_sent, goes_to_head.
    destruct (net env (sent p) request) as [| response]; [exact Hrec |].
    eapply adds_only_trans; [exact Hrec |].
    destruct (status response =? 403).
    + through_bind (adds_only (goes_to [input; login_url]))
                   (adds_only_trans (goes_to [input; login_url])).
      { intros s. apply adds_only_set_authToken. }
      intros _.
      through_bind (adds_only (goes_to [input; login_url]))
                   (adds_only_trans (goes_to [input; login_url])).
      { intros s. eapply adds_only_weaken;
          [| apply (authorize_with_adds (fetch fuel env) env IH)].
        intros q. unfold goes_to. simpl.
        destruct (String.eqb (req_url q) login_url);
          [now rewrite orb_true_r | discriminate]. }
      intros _. apply IH.
    + destruct (status response =? 401); [apply adds_only_refl |].
      destruct (negb (ok response)); [apply adds_only_refl |].
      destruct (negb (status response =? 200)); apply adds_only_refl.
Qed.

(** Whatever the server answers and however the call ends, [fetch] keeps the
    configuration and sends requests to two addresses only: the URL it was
    called with and the login endpoint. *)
Theorem fetch_contacts_its_url_and_the_login fuel env input init p :
  config (snd (fetch fuel env input init p)) = config p /\
  exists l,
    sent (snd (fetch fuel env input init p)) = (sent p ++ l)%list /\
    forallb (goes_to [input; login_url]) l = true.
Proof. apply fetch_adds. Qed.

(** ** Login: one request, no retry *)

Lemma authorize_step fuel env p :
  authorize fuel env p =
  (loginResponse <- fetch fuel env login_url
     (Some (login_init (config p) (random_device_id env (length (sent p))))) ;;
   match json loginResponse with
   | Some body =>
       match login_token body with
       | Some authToken => modify (set_authToken authToken)
       | None => throw JsError
       end
   | None => throw JsError
   end) (set_authToken (Some "") p).
Proof. reflexivity. Qed.

Lemma authorize_answered fuel env p response :
  net env (sent p) (login_request env p) = Responded response ->
  status response = 200 ->
  authorize (S fuel) env p =
  match json response with
  | Some body =>
      match login_token body with
      | Some t =>
          (Ok tt, mkPlatform (config p) t (sent p ++ [login_request env p]))
      | None =>
          (Throw JsError,
           mkPlatform (config p) (Some "") (sent p ++ [login_request env p]))
      end
  | None =>
      (Throw JsError,
       mkPlatform (config p) (Some "") (sent p ++ [login_request env p]))
  end.
Proof.
  intros Hnet Hs. rewrite authorize_step. unfold bind at 1.
  rewrite (fetch_200 fuel env login_url _ (set_authToken (Some "") p)
             response Hnet Hs).
  destruct (json response) as [body |]; [| reflexivity].
  destruct (login_token body); reflexivity.
Qed.

Lemma authorize_accepted fuel env p response token :
  net env (sent p) (login_request env p) = Responded response ->
  status response = 200 -> json response = Some (LoginJson token) ->
  authorize (S fuel) env p
  = (Ok tt, mkPlatform (config p) (Some token) (sent p ++ [login_request env p])).
Proof.
  intros Hnet Hs Hj.
  now rewrite (authorize_answered fuel env p response Hnet Hs), Hj.
Qed.

(** [authorize] first sends the login POST, with the form of the
    credentials and no [Authorization] header.  Answered 200 with a token
    in the [data] object, the login ends there holding that token; answered
    200 with a [data] object that has no token, it ends there too, holding
    none.  Left unanswered, or answered with anything but a 403 or a 200
    whose [data] is an object, it fails there with the token empty: no
    second attempt. *)
Theorem login_is_one_request fuel env p :
  req_method (login_request env p) = POST /\
  req_headers (login_request env p)
  = [("Content-Type", "application/x-www-form-urlencoded")] /\
  (forall response token,
     net env (sent p) (login_request env p) = Responded response ->
     status response = 200 -> json response = Some (LoginJson token) ->
     authorize (S fuel) env p
     = (Ok tt, mkPlatform (config p) (Some token)
                 (sent p ++ [login_request env p]))) /\
  (forall response,
     net env (sent p) (login_request env p) = Responded response ->
     status response = 200 ->
     json response = Some EmptyDataJson \/
     (exists d, json response = Some (DeviceJson d)) ->
     authorize (S fuel) env p
     = (Ok tt, mkPlatform (config p) None (sent p ++ [login_request env p]))) /\
  (login_rejected (net env (sent p) (login_request env p)) = true ->
   exists e,
     authorize (S fuel) env p
     = (Throw e, mkPlatform (config p) (Some "")
                   (sent p ++ [login_request env p]))).
Proof.
  split; [reflexivity |]. split; [reflexivity |]. split; [| split].
  - intros response token. apply authorize_accepted.
  - intros response Hnet Hs Hj.
    rewrite (authorize_answered fuel env p response Hnet Hs).
    destruct Hj as [-> | [d ->]]; reflexivity.
  - intros Hrej.
    destruct (net env (sent p) (login_request env p)) as [| response] eqn:Hnet.
    + rewrite authorize_step. unfold bind at 1.
      rewrite (fetch_transport_failure fuel env login_url _
                 (set_authToken (Some "") p) Hnet).
      now eexists.
    + simpl in Hrej. apply andb_true_iff in Hrej. destruct Hrej as [H403 Hno].
      apply negb_true_iff in H403, Hno.
      apply Z.eqb_neq in H403.
      destruct (Z.eq_dec (status response) 200) as [H200 | H200].
      * rewrite (authorize_answered fuel env p response Hnet H200).
        rewrite H200 in Hno. simpl in Hno.
        destruct (json response) as [[token | d | | | |] |];
          try discriminate; now eexists.
      * rewrite authorize_step. unfold bind at 1.
        destruct (Z.eq_dec (status response) 401) as [H401 | H401].
        -- rewrite (fetch_401 fuel env login_url _ (set_authToken (Some "") p)
                      response Hnet H401).
           now eexists.
        -- rewrite (fetch_other_status fuel env login_url _
                      (set_authToken (Some "") p) response Hnet H200 H401 H403).
           now eexists.
Qed.

Lemma login_is_one_request_witness :
  authorize 1 (expired 0) (new_platform example_config)
  = (Ok tt, mkPlatform example_config (Some "fresh")
              [login_request (expired 0) (new_platform example_config)]) /\
  exists e,
    authorize 1 (always 500) (new_platform example_config)
    = (Throw e, mkPlatform example_config (Some "")
                  [login_request (always 500) (new_platform example_config)]).
Proof.
  split.
  - apply (proj1 (proj2 (proj2 (login_is_one_request 0 (expired 0)
                                  (new_platform example_config))))
             login_response "fresh"); reflexivity.
  - apply (proj2 (proj2 (proj2 (proj2 (login_is_one_request 0 (always 500)
                                         (new_platform example_config)))))).
    reflexivity.
Defined.

(** ** Writes: failure, the answer to a PATCH, the refresh *)

Lemma fetch_fails fuel env input init p h :
  failure_of (net env (sent p) (build_request input init (authToken p)))
  = Some h ->
  fetch (S fuel) env input init p
  = (Throw (HapStatusError h),
     record_sent (build_request input init (authToken p)) p).
Proof.
  intros H. rewrite fetch_unfold. cbv zeta.
  destruct (net env (sent p) _) as [| response]; simpl in H.
  - now injection H as <-.
  - destruct (status response =? 403); [discriminate |].
    destruct (status response =? 401); [now injection H as <- |].
    destruct (Z.eqb_spec (status response) 200) as [H200 | H200];
      [discriminate |].
    injection H as <-.
    destruct (ok response); reflexivity.
Qed.

Lemma on_platform_result {A} (m : M Platform A) a res p' :
  m (platform a) = (res, p') ->
  on_platform m a = (res, mkAccessory p' (device_id a) (data a)).
Proof. unfold on_platform. now intros ->. Qed.

(** A write whose PATCH is left unanswered, or answered with a status other
    than 200 and 403, fails with the error of the client after that one
    request: there is no refresh and the snapshot is the one held before.
    This holds for the thermostat and, with a snapshot held, for the night
    light. *)
Theorem a_rejected_write_stops_at_the_patch fuel env a h :
  (forall body,
     failure_of
       (answer_to env a
          (patch_request a (update_temperature_url (device_id a))
             (ThermostatJson body))) = Some h ->
     updateThermostat (S fuel) env body a
     = (Throw (HapStatusError h),
        after_request
          (patch_request a (update_temperature_url (device_id a))
             (ThermostatJson body)) a)) /\
  (forall settings d,
     data a = Loaded d ->
     failure_of
       (answer_to env a
          (patch_request a (night_light_url (device_id a))
             (NightLightJson (merge (night_light_setting d) settings))))
     = Some h ->
     updateNightLightSettings (S fuel) env settings a
     = (Throw (HapStatusError h),
        after_request
          (patch_request a (night_light_url (device_id a))
             (NightLightJson (merge (night_light_setting d) settings))) a)).
Proof.
  split.
  - intros body H. unfold updateThermostat, bind.
    now rewrite (on_platform_result _ a _ _ (fetch_fails fuel env _ _ _ h H)).
  - intros settings d Hd H. unfold updateNightLightSettings.
    unfold bind at 1, guardedOnlineData. rewrite Hd. unfold ret, bind.
    now rewrite (on_platform_result _ a _ _ (fetch_fails fuel env _ _ _ h H)).
Qed.

Lemma a_rejected_write_stops_at_the_patch_witness :
  updateThermostat 1 (always 500) (SetState 1) (example_accessory Null)
  = (Throw (HapStatusError SERVICE_COMMUNICATION_FAILURE),
     after_request
       (patch_request (example_accessory Null) (update_temperature_url 7)
          (ThermostatJson (SetState 1)))
       (example_accessory Null)) /\
  updateNightLightSettings 1 (always 401) brightness_50
    (example_accessory (Loaded (example_snapshot F 1)))
  = (Throw (HapStatusError INSUFFICIENT_AUTHORIZATION),
     after_request
       (patch_request (example_accessory (Loaded (example_snapshot F 1)))
          (night_light_url 7)
          (NightLightJson (merge example_night_light brightness_50)))
       (example_accessory (Loaded (example_snapshot F 1)))).
Proof.
  split.
  - apply (proj1 (a_rejected_write_stops_at_the_patch 0 (always 500)
                    (example_accessory Null) SERVICE_COMMUNICATION_FAILURE)).
    reflexivity.
  - apply (proj2 (a_rejected_write_stops_at_the_patch 0 (always 401)
                    (example_accessory (Loaded (example_snapshot F 1)))
                    INSUFFICIENT_AUTHORIZATION)
             brightness_50 (example_snapshot F 1) eq_refl).
    reflexivity.
Defined.

(** The two writes differ in what they do with the answer to an accepted
    PATCH.  [updateThermostat] parses it for the log: a 200 whose body is
    not JSON makes it throw before the refresh, with the snapshot as it was.
    [updateNightLightSettings] drops the answer and goes on to the refresh
    whatever the body. *)
Theorem thermostat_write_parses_the_answer fuel env a response :
  status response = 200 -> json response = None ->
  (forall body,
     answer_to env a
       (patch_request a (update_temperature_url (device_id a))
          (ThermostatJson body)) = Responded response ->
     updateThermostat (S fuel) env body a
     = (Throw JsError,
        after_request
          (patch_request a (update_temperature_url (device_id a))
             (ThermostatJson body)) a)) /\
  (forall settings d,
     data a = Loaded d ->
     answer_to env a
       (patch_request a (night_light_url (device_id a))
          (NightLightJson (merge (night_light_setting d) settings)))
     = Responded response ->
     updateNightLightSettings (S fuel) env settings a
     = updateStatus (S fuel) env
         (after_request
            (patch_request a (night_light_url (device_id a))
               (NightLightJson (merge (night_light_setting d) settings))) a)).
Proof.
  intros H200 Hj. split.
  - intros body H. unfold updateThermostat, bind.
    rewrite (on_platform_result _ a _ _
               (fetch_200 fuel env _ _ _ response H H200)).
    now rewrite Hj.
  - intros settings d Hd H. unfold updateNightLightSettings.
    unfold bind at 1, guardedOnlineData. rewrite Hd. unfold ret.
    unfold bind at 1.
    now rewrite (on_platform_result _ a _ _
                   (fetch_200 fuel env _ _ _ response H H200)).
Qed.

Lemma thermostat_write_parses_the_answer_witness :
  updateThermostat 1 (always 200) (SetState 0)
    (example_accessory (Loaded (example_snapshot F 1)))
  = (Throw JsError,
     after_request
       (patch_request (example_accessory (Loaded (example_snapshot F 1)))
          (update_temperature_url 7) (ThermostatJson (SetState 0)))
       (example_accessory (Loaded (example_snapshot F 1)))).
Proof.
  apply (proj1 (thermostat_write_parses_the_answer 0 (always 200)
                  (example_accessory (Loaded (example_snapshot F 1)))
                  (mkResponse 200 None) eq_refl eq_refl)).
  reflexivity.
Defined.




(** ** Writes before the first snapshot *)

(** Without a snapshot the target-temperature setter and every night-light
    write throw RESOURCE_BUSY and send nothing, the accessory staying as it
    is; the heating-state setter does not read the snapshot and sends its
    PATCH all the same. *)
Theorem writes_before_the_first_snapshot fuel env a :
  data a = Null ->
  (forall value,
     targetTemperature_onSet fuel env value a
     = (Throw (HapStatusError RESOURCE_BUSY), a)) /\
  (forall settings,
     updateNightLightSettings fuel env settings a
     = (Throw (HapStatusError RESOURCE_BUSY), a)) /\
  (forall value,
     nightLightOn_onSet fuel env value a
     = (Throw (HapStatusError RESOURCE_BUSY), a)) /\
  (forall value,
     brightness_onSet fuel env value a
     = (Throw (HapStatusError RESOURCE_BUSY), a)) /\
  (forall value,
     sends_first a (snd (targetState_onSet (S fuel) env value a)) PATCH
       (update_temperature_url (device_id a)) (ThermostatJson (SetState value))).
Proof.
  intros Hd.
  assert (Hnl : forall settings,
             updateNightLightSettings fuel env settings a
             = (Throw (HapStatusError RESOURCE_BUSY), a)).
  { intros settings. unfold updateNightLightSettings, bind, guardedOnlineData.
    now rewrite Hd. }
  split; [| split; [| split; [| split]]].
  - intros value. unfold targetTemperature_onSet, bind, guardedOnlineData.
    now rewrite Hd.
  - exact Hnl.
  - intros value. apply Hnl.
  - intros value. apply Hnl.
  - intros value. apply updateThermostat_first.
Qed.

Lemma writes_before_the_first_snapshot_witness :
  targetTemperature_onSet 2 (serving (example_snapshot C 1) 7) (Qc_of_Z 21)
    (example_accessory Null)
  = (Throw (HapStatusError RESOURCE_BUSY), example_accessory Null).
Proof.
  apply (proj1 (writes_before_the_first_snapshot 2
                  (serving (example_snapshot C 1) 7) (example_accessory Null)
                  eq_refl)).
Defined.

(** ** The target temperature, there and back *)

Lemma fToC_cToF t : fToC (cToF t) = t.
Proof.
  assert (H5 := Qc_of_Z_nonzero 5 ltac:(lia)).
  assert (H9 := Qc_of_Z_nonzero 9 ltac:(lia)).
  unfold fToC, cToF. field. auto.
Qed.

(** In either unit the setter and the getter of the target temperature are
    inverse through the device: once a snapshot of the same unit reports as
    [current_temperature] the temperature the setter dispatched, the getter
    returns the Celsius value the setter was called with. *)
Theorem target_temperature_reads_back fuel env value a d :
  data a = Loaded d ->
  exists dispatched,
    sends_first a (snd (targetTemperature_onSet (S fuel) env value a)) PATCH
      (update_temperature_url (device_id a))
      (ThermostatJson (SetTemperature dispatched)) /\
    forall a' d',
      data a' = Loaded d' ->
      temperature_unit d' = temperature_unit d ->
      current_temperature d' = dispatched ->
      targetTemperature_onGet a' = (Ok value, a').
Proof.
  intros Hd.
  exists (match temperature_unit d with F => cToF value | C => value end).
  split.
  - unfold targetTemperature_onSet.
    unfold bind at 1, guardedOnlineData. rewrite Hd. unfold ret.
    destruct (temperature_unit d); apply updateThermostat_first.
  - intros a' d' Hd' Hu Ht.
    unfold targetTemperature_onGet, bind, guardedOnlineData. rewrite Hd'.
    unfold ret. rewrite Hu, Ht.
    destruct (temperature_unit d); [now rewrite fToC_cToF | reflexivity].
Qed.

Lemma target_temperature_reads_back_witness :
  exists dispatched,
    sends_first (example_accessory (Loaded (example_snapshot F 1)))
      (snd (targetTemperature_onSet 1 (serving (example_snapshot F 1) 7)
              (Qc_of_Z 21) (example_accessory (Loaded (example_snapshot F 1)))))
      PATCH (update_temperature_url 7)
      (ThermostatJson (SetTemperature dispatched)) /\
    forall a' d',
      data a' = Loaded d' ->
      temperature_unit d' = F ->
      current_temperature d' = dispatched ->
      targetTemperature_onGet a' = (Ok (Qc_of_Z 21), a').
Proof.
  apply (target_temperature_reads_back 0 (serving (example_snapshot F 1) 7)
           (Qc_of_Z 21) (example_accessory (Loaded (example_snapshot F 1)))
           (example_snapshot F 1) eq_refl).
Defined.

(** ** Reads *)

Lemma reads_only_intro {A} (f : OnlineDeviceData -> A) :
  reads_only (d <- guardedOnlineData ;; ret (f d)).
Proof.
  intros a. unfold bind, guardedOnlineData, ret, throw.
  destruct (data a) as [| d |]; simpl; repeat split; try discriminate.
  intros d' _. now exists (f d).
Qed.

(** Every getter reads the snapshot and nothing else: it sends no request
    and leaves the accessory as it is, throws RESOURCE_BUSY while there is
    no snapshot and returns a value once there is one.  The current and the
    target heating state are the same reading. *)
Theorem getters_only_read (a : Accessory) :
  reads_only currentHeatingCoolingState_onGet /\
  reads_only targetHeatingCoolingState_onGet /\
  reads_only currentTemperature_onGet /\
  reads_only targetTemperature_onGet /\
  reads_only temperatureDisplayUnits_onGet /\
  reads_only nightLightOn_onGet /\
  reads_only brightness_onGet /\
  currentHeatingCoolingState_onGet a = targetHeatingCoolingState_onGet a.
Proof.
  assert (Htemp : forall f : OnlineDeviceData -> Qc,
             reads_only
               (d <- guardedOnlineData ;;
                match temperature_unit d with
                | F => ret (fToC (f d))
                | C => ret (f d)
                end)).
  { intros f a0. unfold bind, guardedOnlineData, ret, throw.
    destruct (data a0) as [| d |]; simpl; repeat split; try discriminate.
    - now destruct (temperature_unit d).
    - intros d' _. destruct (temperature_unit d); now eexists. }
  repeat split; try apply Htemp;
    try apply (reads_only_intro (fun d => if state d =? 1 then HEAT else OFF));
    try apply (reads_only_intro
                 (fun d => match temperature_unit d with
                           | F => FAHRENHEIT
                           | C => CELSIUS
                           end));
    try apply (reads_only_intro (fun d => negb (off (night_light_setting d))));
    try apply (reads_only_intro (fun d => brightness (night_light_setting d))).
Qed.

Lemma getters_only_read_witness :
  fst (nightLightOn_onGet (example_accessory Null))
  = Throw (HapStatusError RESOURCE_BUSY).
Proof.
  apply (proj1 (proj2 (proj1 (proj2 (proj2 (proj2 (proj2 (proj2
           (getters_only_read (example_accessory Null)))))))
           (example_accessory Null)))).
  reflexivity.
Defined.

(** ** Whom an accessory contacts *)

Lemma acc_adds_only_refl P a : acc_adds_only P a a.
Proof. split; [reflexivity | apply adds_only_refl]. Qed.

Lemma acc_adds_only_trans P a b c :
  acc_adds_only P a b -> acc_adds_only P b c -> acc_adds_only P a c.
Proof.
  intros [Hi Ha] [Hi' Ha']. split; [congruence |].
  eapply adds_only_trans; eassumption.
Qed.

Lemma on_platform_adds {A} P (m : M Platform A) :
  preserves (adds_only P) m -> preserves (acc_adds_only P) (on_platform m).
Proof.
  intros Hm a. destruct (on_platform_data m a) as (_ & Hi & Hp & _).
  split; [exact Hi |]. rewrite Hp. apply Hm.
Qed.

Lemma goes_to_incl urls urls' q :
  incl urls urls' -> goes_to urls q = true -> goes_to urls' q = true.
Proof.
  unfold goes_to. rewrite !existsb_exists. intros Hincl (u & Hu & He).
  exists u. split; [now apply Hincl | exact He].
Qed.

Lemma fetch_adds_among fuel env input init urls :
  In input urls -> In login_url urls ->
  preserves (acc_adds_only (goes_to urls)) (on_platform (fetch fuel env input init)).
Proof.
  intros Hin Hlogin. apply on_platform_adds. intros p.
  eapply adds_only_weaken; [| apply fetch_adds].
  intros q. apply goes_to_incl. intros u [<- | [<- | []]]; assumption.
Qed.

Lemma updateStatus_adds_among fuel env urls a :
  In (status_url (device_id a)) urls -> In login_url urls ->
  acc_adds_only (goes_to urls) a (snd (updateStatus fuel env a)).
Proof.
  intros Hin Hlogin. unfold updateStatus.
  through_bind (acc_adds_only (goes_to urls))
               (acc_adds_only_trans (goes_to urls)).
  - now apply fetch_adds_among.
  - intros response s.
    destruct (json response) as [body |];
      [destruct (status_data body) |];
      (split; [reflexivity | apply adds_only_refl]).
Qed.

Lemma append_cancel (a b c : string) : a ++ b = a ++ c -> b = c.
Proof.
  induction a as [| x a IH]; simpl; [auto |].
  intros H. injection H as H. auto.
Qed.

Lemma id_string_inj n n' : id_string n = id_string n' -> n = n'.
Proof.
  unfold id_string. intros H.
  assert (Hnn : forall m, N.to_uint m <> Decimal.Nil).
  { intros [| q]; [discriminate | apply DecimalPos.Unsigned.to_uint_nonnil]. }
  apply (f_equal NilZero.uint_of_string) in H.
  rewrite !NilZero.usu in H by apply Hnn.
  injection H as H. now apply DecimalN.Unsigned.to_uint_inj.
Qed.

(** An accessory talks about its own device only.  A poll sends requests to
    the status URL of its device and to the login endpoint and nowhere else,
    a thermostat write to those and the update-temperature URL, a
    night-light write to those and the night-light URL; and each of the
    three URLs names one device: different ids give different URLs. *)
Theorem an_accessory_contacts_its_own_device fuel env a :
  (forall body settings,
     acc_adds_only (goes_to [status_url (device_id a); login_url]) a
       (snd (updateStatus fuel env a)) /\
     acc_adds_only
       (goes_to [update_temperature_url (device_id a);
                 status_url (device_id a); login_url]) a
       (snd (updateThermostat fuel env body a)) /\
     acc_adds_only
       (goes_to [night_light_url (device_id a);
                 status_url (device_id a); login_url]) a
       (snd (updateNightLightSettings fuel env settings a))) /\
  (forall id id',
     (status_url id = status_url id' -> id = id') /\
     (update_temperature_url id = update_temperature_url id' -> id = id') /\
     (night_light_url id = night_light_url id' -> id = id')).
Proof.
  split.
  - intros body settings. split; [| split].
    + apply updateStatus_adds_among; simpl; auto.
    + unfold updateThermostat, bind.
      pose proof (fetch_adds_among fuel env
                    (update_temperature_url (device_id a))
                    (Some (patch_json (ThermostatJson body)))
                    [update_temperature_url (device_id a);
                     status_url (device_id a); login_url]
                    ltac:(simpl; auto) ltac:(simpl; auto) a) as H1.
      destruct (on_platform _ a) as [[response | e |] a1]; simpl in H1 |- *;
        try exact H1.
      destruct (json response); [| exact H1].
      eapply acc_adds_only_trans; [exact H1 |].
      apply updateStatus_adds_among; rewrite ?(proj1 H1); simpl; auto.
    + rewrite updateNightLightSettings_cases.
      destruct (data a) as [| d |]; try apply acc_adds_only_refl.
      unfold bind.
      pose proof (fetch_adds_among fuel env
                    (night_light_url (device_id a))
                    (Some (patch_json
                             (NightLightJson
                                (merge (night_light_setting d) settings))))
                    [night_light_url (device_id a);
                     status_url (device_id a); login_url]
                    ltac:(simpl; auto) ltac:(simpl; auto) a) as H1.
      destruct (on_platform _ a) as [[response | e |] a1]; simpl in H1 |- *;
        try exact H1.
      eapply acc_adds_only_trans; [exact H1 |].
      apply updateStatus_adds_among; rewrite ?(proj1 H1); simpl; auto.
  - intros id id'. repeat split; intros H; apply append_cancel in H;
      now apply id_string_inj.
Qed.

Lemma an_accessory_contacts_its_own_device_witness :
  acc_adds_only (goes_to [status_url 7; login_url]) (example_accessory Null)
    (snd (updateStatus 3 (expired 4) (example_accessory Null))) /\
  (status_url 7 = status_url 7 -> 7%N = 7%N).
Proof.
  split.
  - apply (proj1 (proj1 (an_accessory_contacts_its_own_device 3 (expired 4)
                           (example_accessory Null))
                    (SetState 1) brightness_50)).
  - apply (proj1 (proj2 (an_accessory_contacts_its_own_device 3 (expired 4)
                           (example_accessory Null)) 7%N 7%N)).
Defined.

(** ** The display unit *)


(** ** Discovery *)







(** ** Startup *)







(** ** The token after a login *)

(** However many attempts a login took, when [authorize] resolves the token
    held is what the [data] of the answer to the last request sent has as
    [token], the token itself when that answer carries one; the request is
    one to the login endpoint and the answer a 200. *)
Theorem a_resolved_login_holds_the_last_token fuel env p p' :
  authorize fuel env p = (Ok tt, p') ->
  exists l q response body,
    sent p' = (l ++ [q])%list /\
    req_url q = login_url /\
    net env l q = Responded response /\
    status response = 200 /\
    json response = Some body /\
    login_token body = Some (authToken p') /\
    (forall token, body = LoginJson token -> authToken p' = Some token).
Proof.
  intros H. apply authorize_ok in H.
  destruct H as (response & body & t & p1 & Hf & Hj & Ht & ->).
  destruct (fetch_ok_is_last_answer fuel env _ _ _ _ _ Hf)
    as (H200 & l & q & Hs & Hu & Hn).
  exists l, q, response, body. repeat split; try assumption.
  intros token ->. simpl in Ht. now injection Ht as <-.
Qed.

Lemma a_resolved_login_holds_the_last_token_witness :
  exists l q response body,
    sent (snd (authorize 1 (expired 0) (new_platform example_config)))
    = (l ++ [q])%list /\
    req_url q = login_url /\
    net (expired 0) l q = Responded response /\
    status response = 200 /\
    json response = Some body /\
    login_token body
    = Some (authToken
              (snd (authorize 1 (expired 0) (new_platform example_config)))) /\
    (forall token,
       body = LoginJson token ->
       authToken (snd (authorize 1 (expired 0) (new_platform example_config)))
       = Some token).
Proof.
  apply (a_resolved_login_holds_the_last_token 1 (expired 0)
           (new_platform example_config)
           (snd (authorize 1 (expired 0) (new_platform example_config)))).
  reflexivity.
Defined.

(** ** The retry after a 403 *)

(** When a request is answered 403 and the login that follows is accepted
    at once, the third request of the call is the original one again, now
    carrying the token the login returned in place of the one it was first
    sent with. *)
Theorem the_retry_carries_the_new_token fuel env input init p expired token
    accepted :
  let first := build_request input init (authToken p) in
  let p1 := set_authToken (Some "") (record_sent first p) in
  net env (sent p) first = Responded expired ->
  status expired = 403 ->
  net env (sent p1) (login_request env p1) = Responded accepted ->
  status accepted = 200 ->
  json accepted = Some (LoginJson token) ->
  nth_sent (length (sent p)) (snd (fetch (S (S fuel)) env input init p))
  = Some first /\
  nth_sent (length (sent p) + 1) (snd (fetch (S (S fuel)) env input init p))
  = Some (login_request env p1) /\
  nth_sent (length (sent p) + 2) (snd (fetch (S (S fuel)) env input init p))
  = Some (build_request input init (Some token)).
Proof.
  intros first p1 Hnet H403 Hlogin H200 Hj.
  split; [apply fetch_first_request |].
  rewrite (fetch_403 (S fuel) env input init p expired Hnet H403).
  fold first. fold p1. unfold bind.
  rewrite (authorize_accepted fuel env p1 accepted token Hlogin H200 Hj).
  set (p2 := mkPlatform (config p1) (Some token)
               (sent p1 ++ [login_request env p1])).
  assert (Hlen : length (sent p2) = (length (sent p) + 2)%nat).
  { subst p2 p1. simpl. rewrite !length_app. simpl. lia. }
  split.
  - destruct (fetch_extends (S fuel) env input init p2) as [_ [l Hl]].
    unfold nth_sent. rewrite Hl. subst p2 p1. simpl.
    rewrite <- !app_assoc. rewrite nth_error_app2 by lia.
    replace (length (sent p) + 1 - length (sent p))%nat with 1%nat by lia.
    reflexivity.
  - rewrite <- Hlen. apply (fetch_first_request fuel env input init p2).
Qed.

Lemma the_retry_carries_the_new_token_witness :
  nth_sent 2 (snd rejected_once)
  = Some (build_request (status_url 7) None (Some "fresh")).
Proof.
  apply (proj2 (proj2 (the_retry_carries_the_new_token 0 (expired 2)
                         (status_url 7) None (new_platform example_config)
                         (mkResponse 403 None) "fresh" login_response
                         eq_refl eq_refl eq_refl eq_refl eq_refl))).
Defined.
